(** * A shallow embedding of the SOMA street-conditions dashboard (src/app.py)

    The development covers the photo-feed classifier, the feed query
    [get_soma_data] and the portal image fetcher [fetch_verint_image].

    Python strings are Rocq [string]s; each character stands for the
    Unicode code point of the same number (so the model covers text in the
    range U+0000..U+00FF).  Network calls go through an oracle that sees the
    whole history of requests issued so far, so cookies kept by a
    [requests.Session] and any other server-side state are covered by
    quantifying over the oracle. *)

From Stdlib Require Import String Ascii List Bool ZArith Lia DecimalString.
#[local] Set Warnings "-register-all".
Import ListNotations.
Open Scope string_scope.
Open Scope list_scope.

(* ------------------------------------------------------------------ *)
(** ** Python string primitives *)

Definition code (c : ascii) : nat := nat_of_ascii c.

(** [str.isspace] on one character (also the class [\s] of [re] for
    [str] patterns): U+0009..U+000D, U+001C..U+001F, U+0020, U+0085,
    U+00A0. *)
Definition is_space (c : ascii) : bool :=
  let n := code c in
  ((9 <=? n) && (n <=? 13))%nat || ((28 <=? n) && (n <=? 32))%nat
  || (n =? 133)%nat || (n =? 160)%nat.

(** [str.lower] on one character: A..Z and the Latin-1 capitals
    U+00C0..U+00DE except U+00D7 gain 32. *)
Definition lower_char (c : ascii) : ascii :=
  let n := code c in
  if ((65 <=? n) && (n <=? 90))%nat
     || ((192 <=? n) && (n <=? 222) && negb (n =? 215))%nat
  then ascii_of_nat (n + 32) else c.

Fixpoint lower (s : string) : string :=
  match s with
  | EmptyString => EmptyString
  | String c s' => String (lower_char c) (lower s')
  end.

(** [a in b] for two strings. *)
Fixpoint contains (needle hay : string) : bool :=
  prefix needle hay ||
  match hay with
  | EmptyString => false
  | String _ h' => contains needle h'
  end.

(** [s.endswith(suffix)]. *)
Definition endswith (s suffix : string) : bool :=
  (String.length suffix <=? String.length s)%nat &&
  String.eqb (substring (String.length s - String.length suffix) (String.length suffix) s) suffix.

(** [s.split(c)] for a one-character separator. *)
Fixpoint split (c : ascii) (s : string) : list string :=
  match s with
  | EmptyString => [EmptyString]
  | String d s' =>
      if Ascii.eqb c d then EmptyString :: split c s'
      else match split c s' with
           | w :: ws => String d w :: ws
           | [] => [String d EmptyString]
           end
  end.

(** [s.split(c, 1)]: cut at the first occurrence only. *)
Fixpoint split_once (c : ascii) (s : string) : option (string * string) :=
  match s with
  | EmptyString => None
  | String d s' =>
      if Ascii.eqb c d then Some (EmptyString, s')
      else match split_once c s' with
           | Some (a, b) => Some (String d a, b)
           | None => None
           end
  end.

Fixpoint lstrip (s : string) : string :=
  match s with
  | String c s' => if is_space c then lstrip s' else s
  | EmptyString => EmptyString
  end.

Definition rev_string (s : string) : string :=
  string_of_list_ascii (rev (list_ascii_of_string s)).

(** [s.strip()]. *)
Definition strip (s : string) : string :=
  rev_string (lstrip (rev_string (lstrip s))).

Definition is_blank (s : string) : bool := String.eqb s EmptyString.

(* ------------------------------------------------------------------ *)
(** ** Exceptions, JSON values, requests and responses *)

(** Exception classes that reach the handlers of app.py. *)
Inductive exn : Type :=
  | Timeout          (* requests.exceptions.Timeout *)
  | ConnectionError  (* requests.exceptions.ConnectionError *)
  | JSONDecodeError  (* r.json() on a body that is not JSON *)
  | AttributeError   (* .get / .split on a value without that method *)
  | TypeError
  | ValueError
  | IndexError
  | BinasciiError.   (* binascii.Error raised by base64.b64decode *)

(** A decoded JSON document, as [r.json()] returns it: objects are the
    resulting dicts (one entry per key). *)
Inductive json : Type :=
  | JNull
  | JBool (b : bool)
  | JNum (z : Z)
  | JStr (s : string)
  | JArr (l : list json)
  | JObj (kv : list (string * json)).

Fixpoint assoc {A} (k : string) (l : list (string * A)) : option A :=
  match l with
  | [] => None
  | (k', v) :: l' => if String.eqb k k' then Some v else assoc k l'
  end.

(** A Python dict with string keys, updated as [d[k] = v] does: in place
    when the key is there, appended otherwise. *)
Fixpoint set_key {A} (k : string) (v : A) (l : list (string * A))
  : list (string * A) :=
  match l with
  | [] => [(k, v)]
  | (k', v') :: l' =>
      if String.eqb k k' then (k', v) :: l' else (k', v') :: set_key k v l'
  end.

Definition headers := list (string * string).

Inductive request : Type :=
  | Get (url : string) (params : list (string * string)) (hdrs : headers)
        (timeout : option Z)
  | Post (url : string) (payload : json) (hdrs : headers) (timeout : option Z).

Record response : Type := {
  status_code : Z;
  text : string;            (* r.text *)
  final_url : string;       (* r.url, after redirects *)
  resp_headers : headers;   (* r.headers, a case-insensitive dict *)
  json_body : option json   (* r.json(): None when the body is not JSON *)
}.

Inductive outcome (A : Type) : Type :=
  | Ok (a : A)
  | Raise (e : exn).
Arguments Ok {A} a.
Arguments Raise {A} e.

(** [name in r.headers] for requests' case-insensitive header dict. *)
Definition header_lookup (name : string) (h : headers) : option string :=
  match find (fun kv => String.eqb (lower (fst kv)) (lower name)) h with
  | Some (_, v) => Some v
  | None => None
  end.

(* ------------------------------------------------------------------ *)
(** ** The two [re.search] patterns of the page scrape

    Both patterns are sequences of literals, runs of [\s] and one group
    of non-quote characters followed by a literal double quote.  Every
    [\s*] / [\s+] is followed by a literal whose first character is not
    white space, and the group (a run of non-quote characters) is followed
    by a double quote, so the greedy run is the only one that can succeed:
    matching without backtracking gives exactly what [re] finds at a given
    start position. *)

Inductive tok : Type :=
  | TLit (s : string)     (* literal text *)
  | TSpace (min : nat)    (* \s* when min = 0, \s+ when min = 1 *)
  | TGroup.               (* a group of one or more non-quote characters *)

Fixpoint span_space (s : string) : nat * string :=
  match s with
  | String c s' =>
      if is_space c then let (n, r) := span_space s' in (S n, r) else (0%nat, s)
  | EmptyString => (0%nat, EmptyString)
  end.

Definition dquote : ascii := Ascii.ascii_of_nat 34.

Fixpoint span_noquote (s : string) : string * string :=
  match s with
  | String c s' =>
      if Ascii.eqb c dquote then (EmptyString, s)
      else let (g, r) := span_noquote s' in (String c g, r)
  | EmptyString => (EmptyString, EmptyString)
  end.

(** Match [p] at the start of [s]; the result is the text of the group
    (the last one seen) when the whole pattern matches. *)
Fixpoint match_at (p : list tok) (grp : option string) (s : string)
  : option (option string) :=
  match p with
  | [] => Some grp
  | TLit l :: p' =>
      if prefix l s then match_at p' grp (substring (String.length l)
                                           (String.length s) s)
      else None
  | TSpace m :: p' =>
      let (n, r) := span_space s in
      if (m <=? n)%nat then match_at p' grp r else None
  | TGroup :: p' =>
      let (g, r) := span_noquote s in
      if is_blank g then None else match_at p' (Some g) r
  end.

(** [re.search(p, s)]: the leftmost start position where [p] matches;
    the result is [group(1)]. *)
Fixpoint search (p : list tok) (s : string) : option string :=
  match match_at p None s with
  | Some (Some g) => Some g
  | Some None => None
  | None => match s with
            | EmptyString => None
            | String _ s' => search p s'
            end
  end.

Definition q : string := String dquote EmptyString.

(** The pattern of line 96 of app.py: the quoted key formref, [\s*],
    a colon, [\s*], a quote, the group, a quote. *)
Definition formref_pattern : list tok :=
  [TLit (q ++ "formref" ++ q); TSpace 0; TLit ":"; TSpace 0; TLit q;
   TGroup; TLit q].

(** The pattern of line 100 of app.py: name= and the quoted _csrf_token,
    [\s+], content= and a quote, the group, a quote. *)
Definition csrf_pattern : list tok :=
  [TLit ("name=" ++ q ++ "_csrf_token" ++ q); TSpace 1;
   TLit ("content=" ++ q); TGroup; TLit q].

(* ------------------------------------------------------------------ *)
(** ** [urllib.parse]: the query part of [urlparse] and [parse_qs] *)

Definition is_c0_or_space (c : ascii) : bool := (code c <=? 32)%nat.

Fixpoint lstrip_c0 (s : string) : string :=
  match s with
  | String c s' => if is_c0_or_space c then lstrip_c0 s' else s
  | EmptyString => EmptyString
  end.

(** Drop the characters of [_UNSAFE_URL_BYTES_TO_REMOVE] (tab, CR, LF). *)
Fixpoint remove_unsafe (s : string) : string :=
  match s with
  | String c s' =>
      let n := code c in
      if (n =? 9)%nat || (n =? 10)%nat || (n =? 13)%nat then remove_unsafe s'
      else String c (remove_unsafe s')
  | EmptyString => EmptyString
  end.

Definition is_alpha (c : ascii) : bool :=
  let n := code c in ((65 <=? n) && (n <=? 90))%nat || ((97 <=? n) && (n <=? 122))%nat.

Definition is_digit (c : ascii) : bool :=
  let n := code c in ((48 <=? n) && (n <=? 57))%nat.

(** [scheme_chars]: letters, digits, [+ - .]. *)
Definition is_scheme_char (c : ascii) : bool :=
  is_alpha c || is_digit c || Ascii.eqb c "+" || Ascii.eqb c "-" || Ascii.eqb c ".".

Fixpoint string_forallb (f : ascii -> bool) (s : string) : bool :=
  match s with
  | String c s' => f c && string_forallb f s'
  | EmptyString => true
  end.

Fixpoint string_existsb (f : ascii -> bool) (s : string) : bool :=
  match s with
  | String c s' => f c || string_existsb f s'
  | EmptyString => false
  end.

(** Split off the scheme as [urlsplit] does. *)
Definition drop_scheme (url : string) : string :=
  match split_once ":" url with
  | Some (sch, rest) =>
      match sch with
      | String c _ => if is_alpha c && string_forallb is_scheme_char sch
                      then rest else url
      | EmptyString => url
      end
  | None => url
  end.

(** [_splitnetloc(url, 2)]: the netloc ends at the first of [/ ? #]. *)
Fixpoint span_netloc (s : string) : string * string :=
  match s with
  | String c s' =>
      if Ascii.eqb c "/" || Ascii.eqb c "?" || Ascii.eqb c "#" then (EmptyString, s)
      else let (n, r) := span_netloc s' in (String c n, r)
  | EmptyString => (EmptyString, EmptyString)
  end.

(** [urlparse(url).query].  The netloc check raises [ValueError] on
    unbalanced brackets ("Invalid IPv6 URL"); the further validation of
    bracketed IPv6 literals and of non-ASCII host names is not modelled. *)
Definition urlparse_query (url0 : string) : outcome string :=
  let url1 := drop_scheme (remove_unsafe (lstrip_c0 url0)) in
  let '(netloc, url2) :=
    match url1 with
    | String "/" (String "/" r) => span_netloc r
    | _ => (EmptyString, url1)
    end in
  let has_open := contains "[" netloc in
  let has_close := contains "]" netloc in
  if (has_open && negb has_close) || (has_close && negb has_open) then Raise ValueError
  else
    let url3 := match split_once "#" url2 with
                | Some (u, _) => u
                | None => url2
                end in
    match split_once "?" url3 with
    | Some (_, query) => Ok query
    | None => Ok EmptyString
    end.

(** Hex digit value, as in [_hextobyte] (both cases). *)
Definition hex_val (c : ascii) : option N :=
  let n := N_of_ascii c in
  if ((48 <=? n) && (n <=? 57))%N then Some (n - 48)%N
  else if ((65 <=? n) && (n <=? 70))%N then Some (n - 55)%N
  else if ((97 <=? n) && (n <=? 102))%N then Some (n - 87)%N
  else None.

(** [unquote_to_bytes] on an ASCII run: a [%] followed by two hex digits
    becomes that byte, any other [%] stays. *)
Fixpoint unquote_to_bytes (s : string) : list N :=
  match s with
  | EmptyString => []
  | String c s' =>
      if Ascii.eqb c "%" then
        match s' with
        | String h1 (String h2 s'') =>
            match hex_val h1, hex_val h2 with
            | Some a, Some b => (a * 16 + b)%N :: unquote_to_bytes s''
            | _, _ => N_of_ascii c :: unquote_to_bytes s'
            end
        | _ => N_of_ascii c :: unquote_to_bytes s'
        end
      else N_of_ascii c :: unquote_to_bytes s'
  end.

Definition replacement_char : N := 65533.

Definition is_cont (b : N) : bool := ((128 <=? b) && (b <=? 191))%N.

Definition in_range (lo hi b : N) : bool := ((lo <=? b) && (b <=? hi))%N.

(** The accepted second byte of a 3-byte (E0..EF) or 4-byte (F0..F4)
    UTF-8 sequence. *)
Definition second_ok (b b1 : N) : bool :=
  if (b =? 224)%N then in_range 160 191 b1
  else if (b =? 237)%N then in_range 128 159 b1
  else if (b =? 240)%N then in_range 144 191 b1
  else if (b =? 244)%N then in_range 128 143 b1
  else is_cont b1.

(** [bytes.decode('utf-8', 'replace')]: each maximal invalid subpart
    becomes one U+FFFD. *)
Fixpoint utf8_decode (bs : list N) : list N :=
  match bs with
  | [] => []
  | b :: r =>
      if (b <? 128)%N then b :: utf8_decode r
      else if in_range 194 223 b then
        match r with
        | b1 :: r1 =>
            if is_cont b1 then ((b - 192) * 64 + (b1 - 128))%N :: utf8_decode r1
            else replacement_char :: utf8_decode r
        | [] => [replacement_char]
        end
      else if in_range 224 239 b then
        match r with
        | b1 :: r1 =>
            if second_ok b b1 then
              match r1 with
              | b2 :: r2 =>
                  if is_cont b2 then
                    ((b - 224) * 4096 + (b1 - 128) * 64 + (b2 - 128))%N
                      :: utf8_decode r2
                  else replacement_char :: utf8_decode r1
              | [] => [replacement_char]
              end
            else replacement_char :: utf8_decode r
        | [] => [replacement_char]
        end
      else if in_range 240 244 b then
        match r with
        | b1 :: r1 =>
            if second_ok b b1 then
              match r1 with
              | b2 :: r2 =>
                  if is_cont b2 then
                    match r2 with
                    | b3 :: r3 =>
                        if is_cont b3 then
                          ((b - 240) * 262144 + (b1 - 128) * 4096
                           + (b2 - 128) * 64 + (b3 - 128))%N :: utf8_decode r3
                        else replacement_char :: utf8_decode r2
                    | [] => [replacement_char]
                    end
                  else replacement_char :: utf8_decode r1
              | [] => [replacement_char]
              end
            else replacement_char :: utf8_decode r
        | [] => [replacement_char]
        end
      else replacement_char :: utf8_decode r
  end.

(** A decoded code point as a character of the string model.  Code points
    above U+00FF (U+FFFD among them) do not fit and are all represented by
    U+00FF; [unquote] produces them only from escapes of non-Latin-1 text,
    and app.py only compares the decoded names with the ASCII key caseid
    and tests the decoded values for emptiness. *)
Definition char_of_cp (n : N) : ascii :=
  if (n <? 256)%N then ascii_of_N n else ascii_of_N 255.

Definition string_of_cps (l : list N) : string :=
  string_of_list_ascii (map char_of_cp l).

Definition is_ascii (c : ascii) : bool := (code c <? 128)%nat.

(** [unquote(s)]: unchanged when it has no [%]; otherwise every maximal
    ASCII run is percent-decoded to bytes and read as UTF-8 ([errors =
    'replace']), non-ASCII runs are kept. *)
Fixpoint unquote_runs (run : string) (s : string) : string :=
  match s with
  | EmptyString => string_of_cps (utf8_decode (unquote_to_bytes run))
  | String c s' =>
      if is_ascii c then unquote_runs (run ++ String c EmptyString) s'
      else string_of_cps (utf8_decode (unquote_to_bytes run))
           ++ String c (unquote_runs EmptyString s')
  end.

Definition unquote (s : string) : string :=
  if contains "%" s then unquote_runs EmptyString s else s.

Fixpoint plus_to_space (s : string) : string :=
  match s with
  | EmptyString => EmptyString
  | String c s' => String (if Ascii.eqb c "+" then " "%char else c) (plus_to_space s')
  end.

(** [parse_qsl(qs)] with [keep_blank_values=False], [strict_parsing=False]
    and the separator [&]: blank fields, fields without [=] and fields
    with an empty value are dropped. *)
Definition parse_field (nv : string) : option (string * string) :=
  if is_blank nv then None
  else match split_once "=" nv with
       | None => None
       | Some (n, v) =>
           if is_blank v then None
           else Some (unquote (plus_to_space n), unquote (plus_to_space v))
       end.

Definition parse_qsl (qs : string) : list (string * string) :=
  let fields := if is_blank qs then [] else split "&" qs in
  fold_right (fun nv acc => match parse_field nv with
                            | Some p => p :: acc
                            | None => acc
                            end) [] fields.

(** [parse_qs(qs)]: name -> list of values, in order. *)
Definition parse_qs (qs : string) : list (string * list string) :=
  fold_left (fun d '(n, v) =>
               match assoc n d with
               | Some vs => set_key n (vs ++ [v]) d
               | None => d ++ [(n, [v])]
               end) (parse_qsl qs) [].

(** [qs.get(key, [None])[0]]. *)
Definition qs_first (key : string) (d : list (string * list string)) : option string :=
  match assoc key d with
  | Some (v :: _) => Some v
  | _ => None
  end.

(* ------------------------------------------------------------------ *)
(** ** [base64.b64decode] (non-strict: [validate=False])

    CPython's [binascii.a2b_base64] with [strict_mode=0]: characters out
    of the alphabet are skipped; a pad ends decoding once it completes a
    quad; a leftover partial quad raises [binascii.Error]. *)

Definition b64_val (c : ascii) : option N :=
  let n := N_of_ascii c in
  if ((65 <=? n) && (n <=? 90))%N then Some (n - 65)%N
  else if ((97 <=? n) && (n <=? 122))%N then Some (n - 71)%N
  else if ((48 <=? n) && (n <=? 57))%N then Some (n + 4)%N
  else if (n =? 43)%N then Some 62%N
  else if (n =? 47)%N then Some 63%N
  else None.

(** The decoding loop; [out] holds the bytes written so far, last first. *)
Fixpoint a2b_base64 (s : string) (quad_pos leftchar pads : N) (out : list N)
  : outcome (list N) :=
  match s with
  | EmptyString =>
      if (quad_pos =? 0)%N then Ok (rev out) else Raise BinasciiError
  | String c s' =>
      if Ascii.eqb c "=" then
        if (2 <=? quad_pos)%N then
          if (4 <=? quad_pos + (pads + 1))%N then Ok (rev out)
          else a2b_base64 s' quad_pos leftchar (pads + 1) out
        else a2b_base64 s' quad_pos leftchar pads out
      else
        match b64_val c with
        | None => a2b_base64 s' quad_pos leftchar pads out
        | Some v =>
            if (quad_pos =? 0)%N then a2b_base64 s' 1 v 0 out
            else if (quad_pos =? 1)%N then
              a2b_base64 s' 2 (N.land v 15) 0
                (N.land (N.lor (N.shiftl leftchar 2) (N.shiftr v 4)) 255 :: out)
            else if (quad_pos =? 2)%N then
              a2b_base64 s' 3 (N.land v 3) 0
                (N.land (N.lor (N.shiftl leftchar 4) (N.shiftr v 2)) 255 :: out)
            else
              a2b_base64 s' 0 0 0
                (N.land (N.lor (N.shiftl leftchar 6) v) 255 :: out)
        end
  end.

(** [base64.b64decode(s)] for a [str] argument: a non-ASCII string raises
    [ValueError]. *)
Definition b64decode (s : string) : outcome (list N) :=
  if string_forallb is_ascii s then a2b_base64 s 0 0 0 [] else Raise ValueError.

(* ------------------------------------------------------------------ *)
(** ** Calls with exceptions and a request log

    A computation reads the list of requests issued so far and returns an
    outcome together with the extended list. *)

Definition M (A : Type) : Type := list request -> outcome A * list request.

Definition ret {A} (a : A) : M A := fun tr => (Ok a, tr).

Definition bind {A B} (m : M A) (k : A -> M B) : M B :=
  fun tr => match m tr with
            | (Ok a, tr') => k a tr'
            | (Raise e, tr') => (Raise e, tr')
            end.

Definition raise {A} (e : exn) : M A := fun tr => (Raise e, tr).

Definition lift {A} (o : outcome A) : M A := fun tr => (o, tr).

(** [try: m except: h] *)
Definition catch {A} (m : M A) (h : exn -> M A) : M A :=
  fun tr => match m tr with
            | (Raise e, tr') => h e tr'
            | r => r
            end.

Notation "x <- m ;; k" := (bind m (fun x => k))
  (at level 61, m at next level, right associativity).

(** [d.get(k, default)] on a decoded JSON value: only dicts have [get]. *)
Definition py_get (d : json) (k : string) (default : json) : outcome json :=
  match d with
  | JObj kv => Ok (match assoc k kv with Some v => v | None => default end)
  | _ => Raise AttributeError
  end.

(** [r.json()] *)
Definition resp_json (r : response) : outcome json :=
  match json_body r with
  | Some j => Ok j
  | None => Raise JSONDecodeError
  end.

(** [fname.split(';')] when [fname] is a decoded JSON value: only a string
    has [split]. *)
Definition json_split (c : ascii) (v : json) : outcome (list string) :=
  match v with
  | JStr s => Ok (split c s)
  | _ => Raise AttributeError
  end.

(* ------------------------------------------------------------------ *)
(** ** Pieces of [fetch_verint_image] *)

Definition map_markers : list string := ["m.jpg"; "_map.jpg"; "_map.jpeg"].
Definition photo_exts : list string := [".jpg"; ".jpeg"; ".png"].

(** Step 6 of [fetch_verint_image] (lines 129-137): the loop over
    [filename_str.split(';')]. *)
Fixpoint select_filename (fnames : list string) : option string :=
  match fnames with
  | [] => None
  | fname0 :: rest =>
      let fname := strip fname0 in
      if is_blank fname then select_filename rest
      else
        let f_lower := lower fname in
        if existsb (fun x => contains x f_lower) map_markers then select_filename rest
        else if existsb (endswith f_lower) photo_exts then Some fname
        else select_filename rest
  end.

(** Lines 147-149 after [txt_file] is read: ["," in b64_data], the
    [split(",")[1]] and [base64.b64decode].  For a value that is not a
    string: [in] on None, a number or a bool raises [TypeError]; a list or
    dict holding the key [","] has no [split] ([AttributeError]); any other
    list or dict reaches [b64decode], which raises [TypeError]. *)
Definition decode_txt_file (b64_data : json) : outcome (list N) :=
  match b64_data with
  | JStr s =>
      if contains "," s then b64decode (nth 1 (split "," s) EmptyString)
      else b64decode s
  | JArr l =>
      if existsb (fun x => match x with JStr t => String.eqb t "," | _ => false end) l
      then Raise AttributeError else Raise TypeError
  | JObj kv =>
      match assoc "," kv with
      | Some _ => Raise AttributeError
      | None => Raise TypeError
      end
  | _ => Raise TypeError
  end.

Definition user_agent : string :=
  "Mozilla/5.0 (Windows NT 10.0; Win64; x64) AppleWebKit/537.36 (KHTML, like Gecko) Chrome/120.0.0.0 Safari/537.36".

Definition initial_headers : headers :=
  [("User-Agent", user_agent); ("Referer", "https://mobile311.sfgov.org/")].

Definition portal_origin : string :=
  "https://sanfrancisco.form.us.empro.verintcloudservices.com".

Definition citizen_url : string :=
  portal_origin ++ "/api/citizen?archived=Y&preview=false&locale=en".

Definition api_base : string := portal_origin ++ "/api/custom".

Definition list_url : string :=
  api_base ++ "?action=get_attachments_details&actionedby=&loadform=true&access=citizen&locale=en".

Definition download_url : string :=
  api_base ++ "?action=download_attachment&actionedby=&loadform=true&access=citizen&locale=en".

Definition nested_data (case_id formref : string) : list (string * json) :=
  [("caseid", JStr case_id); ("formref", JStr formref)].

Definition payload_of (data : list (string * json)) : json :=
  JObj [("data", JObj data); ("name", JStr "download_attachments");
        ("email", JStr EmptyString); ("xref", JStr EmptyString); ("xref1", JStr EmptyString);
        ("xref2", JStr EmptyString)].

(** The download payload: the shallow copy of [nested_payload] shares its
    inner [data] dict, into which the filename is written. *)
Definition download_data (case_id formref target : string) : list (string * json) :=
  set_key "filename" (JStr target) (nested_data case_id formref).

(** Step 4, the handshake headers before the GET (lines 106-108). *)
Definition handshake_headers (page : response) (csrf : option string) : headers :=
  let h1 := set_key "Referer" (final_url page) initial_headers in
  let h2 := set_key "Origin" portal_origin h1 in
  match csrf with
  | Some t => set_key "X-CSRF-TOKEN" t h2
  | None => h2
  end.

Section Portal.

(** The network: the response (or the exception raised by [requests]) to a
    request, given the requests issued before it. *)
Variable net : list request -> request -> outcome response.

Definition send (r : request) : M response := fun tr => (net tr r, tr ++ [r]).

(** Steps 4 to 7 once the page is loaded and [formref] is known. *)
Definition fetch_attachments (case_id : string) (page : response) (formref : string)
  : M (option (list N)) :=
  let csrf_token := search csrf_pattern (text page) in
  let h3 := handshake_headers page csrf_token in
  hs <- catch (r_handshake <- send (Get citizen_url [] h3 (Some 5%Z)) ;;
               ret (match header_lookup "Authorization" (resp_headers r_handshake) with
                    | Some a => set_key "Authorization" a h3
                    | None => h3
                    end))
              (fun _ => ret h3) ;;
  let hdrs := set_key "Content-Type" "application/json" hs in
  r_list <- send (Post list_url (payload_of (nested_data case_id formref)) hdrs (Some 5%Z)) ;;
  files_data <- lift (resp_json r_list) ;;
  d <- lift (py_get files_data "data" (JObj [])) ;;
  filename_str <- lift (py_get d "formdata_filenames" (JStr EmptyString)) ;;
  fnames <- lift (json_split ";" filename_str) ;;
  match select_filename fnames with
  | None => ret None
  | Some target =>
      r_image <- send (Post download_url
                         (payload_of (download_data case_id formref target))
                         hdrs (Some 5%Z)) ;;
      if (status_code r_image =? 200)%Z then
        j <- lift (resp_json r_image) ;;
        d' <- lift (py_get j "data" (JObj [])) ;;
        b64_data <- lift (py_get d' "txt_file" (JStr EmptyString)) ;;
        bytes <- lift (decode_txt_file b64_data) ;;
        ret (Some bytes)
      else ret None
  end.

(** The body of the outer [try] of [fetch_verint_image] (lines 77-149). *)
Definition fetch_body (wrapper_url : string) : M (option (list N)) :=
  query <- lift (urlparse_query wrapper_url) ;;
  match qs_first "caseid" (parse_qs query) with
  | None => ret None
  | Some url_case_id =>
      if is_blank url_case_id then ret None
      else
        r_page <- send (Get wrapper_url [] initial_headers (Some 5%Z)) ;;
        if negb (status_code r_page =? 200)%Z then ret None
        else
          match search formref_pattern (text r_page) with
          | None => ret None
          | Some formref => fetch_attachments url_case_id r_page formref
          end
  end.

(** [fetch_verint_image(wrapper_url)]: [except Exception: return None].
    The [st.cache_data] memoisation is left out: it returns a result
    computed earlier for the same URL. *)
Definition fetch_verint_image (wrapper_url : string) : M (option (list N)) :=
  catch (fetch_body wrapper_url) (fun _ => ret None).

End Portal.

(* ------------------------------------------------------------------ *)
(** ** The feed query [get_soma_data] (lines 159-169) *)

(** A DataFrame built by [pd.DataFrame(r.json())] from the records of the
    body, or the empty [pd.DataFrame()]. *)
Inductive frame : Type :=
  | EmptyFrame
  | Frame (body : json).

(** [pd.DataFrame(x)] on a decoded body: a scalar raises [ValueError]
    (DataFrame constructor not properly called); pandas' further checks of
    lists and dicts (ragged columns) are not modelled. *)
Definition mk_frame (j : json) : outcome frame :=
  match j with
  | JArr _ | JObj _ => Ok (Frame j)
  | _ => Raise ValueError
  end.

Definition soma_base_url : string := "https://data.sfgov.org/resource/vw6y-z8j6.json".

Definition z_to_string (z : Z) : string := NilEmpty.string_of_int (Z.to_int z).

(** The query parameters; [ninety_days_ago] is the formatted value of
    [datetime.now() - timedelta(days=90)]. *)
Definition soma_params (ninety_days_ago : string) (limit : Z) : list (string * string) :=
  [("$where", "analysis_neighborhood = 'South of Market' AND requested_datetime > '"
              ++ ninety_days_ago
              ++ "' AND media_url IS NOT NULL AND (service_subtype = 'homelessness_and_supportive_housing' OR service_name LIKE '%Encampment%')")%string;
   ("$order", "requested_datetime DESC");
   ("$limit", z_to_string limit)].

Section Feed.

Variable net : list request -> request -> outcome response.

(** [get_soma_data(limit)]: the GET carries no timeout and no handler. *)
Definition get_soma_data (ninety_days_ago : string) (limit : Z) : M frame :=
  r <- send net (Get soma_base_url (soma_params ninety_days_ago limit) [] None) ;;
  if (status_code r =? 200)%Z then
    j <- lift (resp_json r) ;;
    lift (mk_frame j)
  else ret EmptyFrame.

End Feed.

(* ------------------------------------------------------------------ *)
(** ** URL type detection in the photo-feed loop (lines 216-224) *)

(** [row.get('media_url')] as the feed delivers it: a string, a dict
    (whose [url] entry is a string, or is null or missing), or a missing
    value (None, or NaN in the DataFrame). *)
Inductive media_url : Type :=
  | MediaStr (s : string)
  | MediaDict (url : option string)
  | MediaNone
  | MediaNaN.

(** The value [url] of line 217. *)
Inductive url_value : Type :=
  | UStr (s : string)
  | UNone
  | UNaN.

Definition extract_url (m : media_url) : url_value :=
  match m with
  | MediaStr s => UStr s
  | MediaDict (Some s) => UStr s
  | MediaDict None => UNone
  | MediaNone => UNone
  | MediaNaN => UNaN
  end.

(** [str(url)] *)
Definition py_str (u : url_value) : string :=
  match u with
  | UStr s => s
  | UNone => "None"
  | UNaN => "nan"
  end.

Definition image_exts : list string := [".jpg"; ".jpeg"; ".png"; ".webp"].

(** Which branch of lines 221-224 a record takes: its [url] itself becomes
    the image content, [fetch_verint_image(url)] is called, or nothing. *)
Inductive url_kind : Type :=
  | DirectImage (u : url_value)
  | PortalWrapper (u : url_value)
  | Unusable.

Definition url_type_detection (u : url_value) : url_kind :=
  if existsb (fun ext => contains ext (lower (py_str u))) image_exts then DirectImage u
  else if contains "verintcloudservices" (py_str u) then PortalWrapper u
  else Unusable.

Definition classify (m : media_url) : url_kind := url_type_detection (extract_url m).

(* ------------------------------------------------------------------ *)
(** ** The heatmap query [get_citywide_heatmap_data] (lines 41-65) *)

(** The query parameters; [days_ago] is the formatted value of
    [datetime.now() - timedelta(days=30)]. *)
Definition heatmap_params (days_ago : string) : list (string * string) :=
  [("$select", "lat, lon");
   ("$where", "requested_datetime > '" ++ days_ago
              ++ "' AND (service_subtype = 'homelessness_and_supportive_housing' OR service_name LIKE '%Encampment%')")%string;
   ("$limit", "25000")].

Section Heatmap.

Variable net : list request -> request -> outcome response.

(** The pandas steps of lines 61-63 (the two
    [pd.to_numeric(..., errors='coerce')] and [dropna]) are a parameter:
    the statements below hold for every behaviour of them, exceptions
    included. *)
Variable pandas_steps : frame -> outcome frame.

Definition get_citywide_heatmap_data (days_ago : string) : M frame :=
  catch (r <- send net (Get soma_base_url (heatmap_params days_ago) [] (Some 10%Z)) ;;
         if negb (status_code r =? 200)%Z then ret EmptyFrame
         else
           j <- lift (resp_json r) ;;
           df <- lift (mk_frame j) ;;
           lift (pandas_steps df))
        (fun _ => ret EmptyFrame).

(** [@st.cache_data(ttl=3600)] of line 41. The function has no argument,
    so the cache holds at most one frame; [cached] is that entry when it
    is still valid at the call (an entry older than an hour counts as
    absent). A hit returns the stored frame without running the body; a
    miss runs the body and stores its frame (the body never raises, so
    there is always one to store). The recomputed [days_ago] only
    matters on a miss. *)
Definition cached_heatmap (days_ago : string) (cached : option frame)
  : M (frame * option frame) :=
  match cached with
  | Some df => ret (df, cached)
  | None => df <- get_citywide_heatmap_data days_ago ;; ret (df, Some df)
  end.

End Heatmap.

(* ------------------------------------------------------------------ *)
(** ** The photo-feed loops (lines 208-248) *)

(** A cell of a DataFrame row read with [row.get(col, default)]: a string,
    NaN (the column exists, this row has no value), or no such column. *)
Inductive cell : Type :=
  | CellStr (s : string)
  | CellNaN
  | CellMissing.

(** The columns of a feed row the loops read.  [requested_datetime] only
    feeds the date caption, which is not modelled. *)
Record feed_row : Type := {
  status_notes : cell;
  media : media_url;
  address : cell
}.

(** [str(row.get('status_notes', ''))] *)
Definition notes_str (c : cell) : string :=
  match c with
  | CellStr s => s
  | CellNaN => "nan"
  | CellMissing => EmptyString
  end.

(** Line 214: the duplicate filter. *)
Definition is_duplicate (row : feed_row) : bool :=
  contains "duplicate" (lower (notes_str (status_notes row))).

(** [img_content]: the URL itself, or the bytes fetched from the portal. *)
Inductive content : Type :=
  | CUrl (u : url_value)
  | CBytes (b : list N).

(** [if img_content:] *)
Definition truthy (c : content) : bool :=
  match c with
  | CUrl (UStr s) => match s with EmptyString => false | _ => true end
  | CUrl UNone => false
  | CUrl UNaN => true
  | CBytes b => match b with [] => false | _ => true end
  end.

(** The [st.cache_data] store of [fetch_verint_image]: argument -> result.
    Its one-hour expiry is not modelled: a pass of the loop is taken to
    run within the hour. *)
Definition fetch_cache := list (string * option (list N)).

Section FeedLoop.

Variable net : list request -> request -> outcome response.

(** A call of the cached [fetch_verint_image]. *)
Definition cached_fetch (cache : fetch_cache) (url : string)
  : M (option (list N) * fetch_cache) :=
  match assoc url cache with
  | Some res => ret (res, cache)
  | None => res <- fetch_verint_image net url ;; ret (res, cache ++ [(url, res)])
  end.

(** Lines 219-224 for one non-duplicate row. *)
Definition resolve_row (cache : fetch_cache) (row : feed_row)
  : M (option content * fetch_cache) :=
  match url_type_detection (extract_url (media row)) with
  | DirectImage u => ret (Some (CUrl u), cache)
  | PortalWrapper u =>
      rc <- cached_fetch cache (py_str u) ;;
      ret (option_map CBytes (fst rc), snd rc)
  | Unusable => ret (None, cache)
  end.

(** The pre-processing loop (lines 212-227): [display_list], in order. *)
Fixpoint preprocess (rows : list feed_row) (cache : fetch_cache)
  : M (list (content * feed_row) * fetch_cache) :=
  match rows with
  | [] => ret ([], cache)
  | row :: rest =>
      if is_duplicate row then preprocess rest cache
      else
        step <- resolve_row cache row ;;
        res <- preprocess rest (snd step) ;;
        ret (match fst step with
             | Some c => if truthy c then (c, row) :: fst res else fst res
             | None => fst res
             end, snd res)
  end.

End FeedLoop.

Definition batch_size : nat := 4.

(** [range(0, n, step)] for [step > 0]. *)
Definition range_step (n step : nat) : list nat :=
  map (fun b => step * b)%nat (seq 0 ((n + step - 1) / step)).

(** The display loop (lines 230-235): for each [i] of [range(0, n, 4)] and
    each [j] of [range(4)] with [i + j < n], item [i + j] goes to column
    [j] of the batch [i]; the triples are (i, j, i + j) in display order. *)
Definition display_layout (n : nat) : list (nat * nat * nat) :=
  flat_map (fun i => flat_map (fun j => if (i + j <? n)%nat then [(i, j, i + j)] else [])
                              (seq 0 batch_size))
           (range_step n batch_size).

(** The whole display loop (lines 230-247). The body run for one item
    (lines 236-247: [st.image], [pd.to_datetime(...).strftime(...)], the
    address split and the markdown) is the parameter [render]; any step
    of it may raise, e.g. the [.split] of a NaN address (see
    [address_caption] below). The slots of [display_layout] are run in
    order, [display_list[i+j]] is read, and the first exception leaves
    both loops and propagates, after the items before it were shown.
    The result is the list of items shown, (batch, column, rendering),
    and the exception that stopped the loop, if any. *)
Section DisplayLoop.

Context {A B : Type}.
Variable render : A -> outcome B.

Fixpoint show_cells (cells : list (nat * nat * nat)) (items : list A)
  : list (nat * nat * B) * option exn :=
  match cells with
  | [] => ([], None)
  | (i, j, k) :: cs =>
      match nth_error items k with
      | None => ([], Some IndexError)
      | Some item =>
          match render item with
          | Raise e => ([], Some e)
          | Ok b => let '(out, err) := show_cells cs items in ((i, j, b) :: out, err)
          end
      end
  end.

Definition display_loop (display_list : list A) : list (nat * nat * B) * option exn :=
  show_cells (display_layout (length display_list)) display_list.

End DisplayLoop.

(** [s.replace(' ', '+')] *)
Fixpoint replace_space (s : string) : string :=
  match s with
  | EmptyString => EmptyString
  | String c s' => String (if Ascii.eqb c " " then "+"%char else c) (replace_space s')
  end.

Definition maps_base : string := "https://www.google.com/maps/search/?api=1&query=".

(** Lines 242-246: the address label and the map link.  A NaN address has
    neither [split] nor [replace] ([AttributeError]). *)
Definition address_caption (a : cell) : outcome (string * string) :=
  match a with
  | CellStr s => Ok (hd EmptyString (split "," s), (maps_base ++ replace_space s)%string)
  | CellMissing => Ok ("SOMA", maps_base)
  | CellNaN => Raise AttributeError
  end.

(* ================================================================== *)
(** * Properties *)

(** ** String lemmas *)

Section StringLemmas.
Local Open Scope string_scope.

Lemma prefix_app (t b : string) : prefix t (t ++ b) = true.
Proof.
  induction t as [|c t IH]; simpl.
  - destruct b; reflexivity.
  - destruct (ascii_dec c c); [exact IH|congruence].
Qed.

Lemma prefix_app_l (t a b : string) :
  prefix t a = true -> prefix t (a ++ b) = true.
Proof.
  revert a. induction t as [|c t IH]; intros a H; simpl.
  - destruct (a ++ b); reflexivity.
  - destruct a as [|d a]; simpl in H; [discriminate|].
    simpl. destruct (ascii_dec c d); [|discriminate]. exact (IH a H).
Qed.

Lemma contains_app_r (t a s : string) :
  contains t s = true -> contains t (a ++ s) = true.
Proof.
  induction a as [|c a IH]; intro H; simpl; [exact H|].
  rewrite (IH H). apply Bool.orb_true_r.
Qed.

Lemma contains_app_l (t a b : string) :
  contains t a = true -> contains t (a ++ b) = true.
Proof.
  induction a as [|c a IH]; intro H.
  - simpl in H. destruct t; [destruct b; reflexivity|discriminate].
  - change (contains t (String c (a ++ b)) = true).
    change (contains t (String c a) = true) in H.
    pose proof (prefix_app_l t (String c a) b) as Hp. simpl in Hp.
    simpl in H |- *. apply Bool.orb_true_iff in H as [H|H].
    + rewrite (Hp H). reflexivity.
    + rewrite (IH H). apply Bool.orb_true_r.
Qed.

Lemma contains_middle (t a b : string) : contains t (a ++ t ++ b) = true.
Proof.
  apply contains_app_r. destruct t as [|c t]; simpl.
  - destruct b; reflexivity.
  - destruct (ascii_dec c c); [|congruence]. rewrite prefix_app. reflexivity.
Qed.

Lemma append_empty_r (s : string) : s ++ EmptyString = s.
Proof. induction s as [|c s IH]; simpl; [reflexivity|now rewrite IH]. Qed.

Lemma lower_app (a b : string) : lower (a ++ b) = lower a ++ lower b.
Proof. induction a as [|c a IH]; simpl; [reflexivity|now rewrite IH]. Qed.

Lemma substring_split (s : string) (n : nat) :
  (n <= String.length s)%nat ->
  s = substring 0 n s ++ substring n (String.length s - n) s.
Proof.
  revert n. induction s as [|c s IH]; intros n Hn.
  - destruct n; [reflexivity|simpl in Hn; lia].
  - destruct n as [|n].
    + simpl. f_equal. clear IH Hn. induction s as [|d s IHs]; simpl; [reflexivity|].
      now rewrite <- IHs.
    + simpl in *. rewrite (IH n) at 1 by lia. reflexivity.
Qed.

Lemma endswith_inv (s t : string) :
  endswith s t = true -> exists a, s = a ++ t.
Proof.
  unfold endswith. intro H. apply Bool.andb_true_iff in H as [Hl He].
  apply Nat.leb_le in Hl. apply String.eqb_eq in He.
  exists (substring 0 (String.length s - String.length t) s).
  pose proof (substring_split s (String.length s - String.length t) ltac:(lia)) as Hs.
  replace (String.length s - (String.length s - String.length t))%nat
    with (String.length t) in Hs by lia.
  rewrite He in Hs. exact Hs.
Qed.

Lemma endswith_contains (s t : string) : endswith s t = true -> contains t s = true.
Proof.
  intro H. destruct (endswith_inv s t H) as [a ->].
  pose proof (contains_middle t a EmptyString) as Hm.
  rewrite append_empty_r in Hm. exact Hm.
Qed.

Lemma string_app_assoc (a b c : string) : a ++ b ++ c = (a ++ b) ++ c.
Proof. induction a as [|x a IH]; simpl; [reflexivity|now rewrite IH]. Qed.

End StringLemmas.

(** ** The attachment selector *)

(** The filenames of an attachment listing as the selector reads them:
    the entries of the semicolon-delimited string, stripped, blanks
    dropped. *)
Definition filename_list (filename_str : string) : list string :=
  filter (fun f => negb (is_blank f)) (map strip (split ";" filename_str)).

Definition has_map_marker (f : string) : bool :=
  existsb (fun x => contains x (lower f)) map_markers.

(** The canonical selection policy read from the spec: an image extension
    (.jpg, .jpeg, .png, case-insensitive) and no map-artifact marker. *)
Definition qualifies (f : string) : bool :=
  existsb (endswith (lower f)) photo_exts && negb (has_map_marker f).

Lemma select_filename_find (l : list string) :
  select_filename l = find qualifies (filter (fun f => negb (is_blank f)) (map strip l)).
Proof.
  induction l as [|f0 l IH]; [reflexivity|].
  cbn -[map_markers photo_exts].
  destruct (is_blank (strip f0)) eqn:Hb; cbn -[map_markers photo_exts]; [exact IH|].
  unfold qualifies, has_map_marker.
  destruct (existsb (fun x => contains x (lower (strip f0))) map_markers);
    cbn -[map_markers photo_exts].
  - rewrite Bool.andb_false_r. exact IH.
  - rewrite Bool.andb_true_r.
    destruct (existsb (endswith (lower (strip f0))) photo_exts); [reflexivity|exact IH].
Qed.

Lemma find_none_forall {A} (p : A -> bool) (l : list A) :
  Forall (fun x => p x = false) l -> find p l = None.
Proof. induction 1 as [|x l Hx _ IH]; simpl; [reflexivity|now rewrite Hx]. Qed.

(** C4: the selector returns the first stripped, non-blank filename that
    ends in .jpg, .jpeg or .png (case-insensitive) and carries no
    map-artifact marker, or nothing; on the listing
    case123.jpg;case123_map.jpg it returns case123.jpg, and on a listing
    whose every entry carries a marker it returns nothing. *)
Theorem attachment_selector_canonical :
  (forall filename_str : string,
      select_filename (split ";" filename_str) = find qualifies (filename_list filename_str)) /\
  select_filename (split ";" "case123.jpg;case123_map.jpg") = Some "case123.jpg" /\
  (forall filename_str : string,
      Forall (fun f => has_map_marker f = true) (filename_list filename_str) ->
      select_filename (split ";" filename_str) = None).
Proof.
  split; [|split].
  - intro s. apply select_filename_find.
  - reflexivity.
  - intros s H. rewrite select_filename_find. apply find_none_forall.
    eapply Forall_impl; [|exact H]. intros f Hf. simpl in Hf.
    unfold qualifies. rewrite Hf, Bool.andb_false_r. reflexivity.
Qed.

(** C9: the markers are substrings of the lower-cased name, so every
    filename whose lower-cased form ends in m.jpg (room.jpg, team.jpg) is
    skipped, and a listing whose only image entries end in m.jpg yields no
    filename. *)
Theorem selector_skips_names_ending_in_m_jpg :
  (forall f : string, endswith (lower f) "m.jpg" = true -> qualifies f = false) /\
  (forall filename_str : string,
      Forall (fun f => existsb (endswith (lower f)) photo_exts = true ->
                       endswith (lower f) "m.jpg" = true) (filename_list filename_str) ->
      select_filename (split ";" filename_str) = None) /\
  select_filename (split ";" "room.jpg;team.JPG") = None.
Proof.
  assert (Hskip : forall f, endswith (lower f) "m.jpg" = true -> qualifies f = false).
  { intros f H. unfold qualifies, has_map_marker. simpl.
    rewrite (endswith_contains _ _ H). rewrite Bool.andb_false_r. reflexivity. }
  split; [exact Hskip|split].
  - intros s H. rewrite select_filename_find. apply find_none_forall.
    eapply Forall_impl; [|exact H]. intros f Hf.
    destruct (existsb (endswith (lower f)) photo_exts) eqn:He.
    + exact (Hskip f (Hf He)).
    + unfold qualifies. rewrite He. reflexivity.
  - reflexivity.
Qed.

(** ** Decoding the downloaded payload *)

(** The spec's reading of the data-URI strip: everything after the first
    comma. *)
Definition after_first_comma (s : string) : string :=
  match split_once "," s with
  | Some (_, rest) => rest
  | None => s
  end.

Lemma split_not_nil (c : ascii) (s : string) : split c s <> [].
Proof.
  induction s as [|d s IH]; simpl; [discriminate|].
  destruct (Ascii.eqb c d); [discriminate|].
  destruct (split c s); discriminate.
Qed.

Lemma split_comma_prefix (pre post : string) :
  contains "," pre = false ->
  split "," (pre ++ String "," post) = pre :: split "," post.
Proof.
  induction pre as [|d pre IH]; intro H; [reflexivity|].
  cbn [contains] in H. cbn [split append].
  apply Bool.orb_false_iff in H as [H1 H2].
  destruct (Ascii.eqb "," d) eqn:E.
  - apply Ascii.eqb_eq in E. subst d. destruct pre; vm_compute in H1; discriminate H1.
  - rewrite (IH H2). reflexivity.
Qed.

(** C5 (as the code does it): when the payload is [pre ++ "," ++ post]
    with no comma in [pre], the bytes are the base64 decoding of [post]
    up to its own first comma, i.e. of the text between the first and the
    second comma; with a single comma this is everything after it. *)
Theorem txt_file_decodes_second_comma_field (pre post : string) :
  contains "," pre = false ->
  decode_txt_file (JStr (pre ++ String "," post)) = b64decode (hd EmptyString (split "," post)).
Proof.
  intro H. unfold decode_txt_file.
  assert (Hc : contains "," (pre ++ String "," post) = true).
  { apply (contains_middle "," pre post). }
  rewrite Hc, (split_comma_prefix pre post H). simpl.
  destruct (split "," post) eqn:E; [exfalso; exact (split_not_nil _ _ E)|reflexivity].
Qed.

Lemma txt_file_decodes_second_comma_field_witness :
  contains "," "data:image/jpeg;base64" = false /\
  decode_txt_file (JStr ("data:image/jpeg;base64" ++ String "," "/9j/4AAQSkZJRg=="))
  = b64decode "/9j/4AAQSkZJRg==" /\
  b64decode "/9j/4AAQSkZJRg==" = Ok [255; 216; 255; 224; 0; 16; 74; 70; 73; 70]%N.
Proof.
  split; [reflexivity|split].
  - exact (txt_file_decodes_second_comma_field "data:image/jpeg;base64" "/9j/4AAQSkZJRg==" eq_refl).
  - vm_compute. reflexivity.
Defined.

(** C5 as stated fails: on a payload with two commas the code decodes only
    the field between them, not everything after the first comma. *)
Lemma txt_file_not_everything_after_first_comma :
  ~ (forall s : string, contains "," s = true ->
       decode_txt_file (JStr s) = b64decode (after_first_comma s)).
Proof.
  intro H. specialize (H "a,QUJD,REVG" eq_refl). vm_compute in H. discriminate H.
Qed.

(** ** URL type detection *)

(** Spec reading: the URL with its query string cut off. *)
Definition strip_query (s : string) : string :=
  match split_once "?" s with
  | Some (a, _) => a
  | None => s
  end.

Definition spec_image_exts : list string :=
  [".jpg"; ".jpeg"; ".png"; ".gif"; ".webp"; ".bmp"].

Lemma split_once_app (c : ascii) (s a b : string) :
  split_once c s = Some (a, b) -> s = (a ++ String c b)%string.
Proof.
  revert a b. induction s as [|d s IH]; intros a b H; simpl in H; [discriminate|].
  destruct (Ascii.eqb c d) eqn:E.
  - apply Ascii.eqb_eq in E. subst d. injection H as <- <-. reflexivity.
  - destruct (split_once c s) as [[a' b']|] eqn:E'; [|discriminate].
    injection H as <- <-. simpl. f_equal. exact (IH a' b' eq_refl).
Qed.

Lemma strip_query_app (s : string) : exists rest, s = (strip_query s ++ rest)%string.
Proof.
  unfold strip_query. destruct (split_once "?" s) as [[a b]|] eqn:E.
  - exists (String "?" b). exact (split_once_app _ _ _ _ E).
  - exists EmptyString. symmetry. apply append_empty_r.
Qed.

(** C2 (corrected): a media reference whose URL, query string cut off and
    lower-cased, ends in .jpg, .jpeg, .png or .webp is a direct image
    carrying the unmodified URL. The test is a substring test over the
    whole lower-cased URL, query string included: a string URL is a
    direct image exactly when its lower-cased text contains one of the
    four extensions, wherever it occurs. *)
Theorem direct_image_by_extension :
  (forall (m : media_url) (s : string),
     extract_url m = UStr s ->
     existsb (endswith (lower (strip_query s))) image_exts = true ->
     classify m = DirectImage (UStr s)) /\
  (forall (m : media_url) (s : string),
     extract_url m = UStr s ->
     (classify m = DirectImage (UStr s) <->
      existsb (fun ext => contains ext (lower s)) image_exts = true)) /\
  (forall (a b ext : string),
     In ext image_exts -> classify (MediaStr (a ++ ext ++ b)) = DirectImage (UStr (a ++ ext ++ b))).
Proof.
  refine (conj _ (conj _ _)).
  - intros m s Hm He. unfold classify, url_type_detection. rewrite Hm. simpl py_str.
    apply existsb_exists in He as [ext [Hin Hend]].
    destruct (endswith_inv _ _ Hend) as [a Ha].
    destruct (strip_query_app s) as [rest Hr].
    assert (Hc : contains ext (lower s) = true).
    { rewrite Hr, lower_app, Ha, <- string_app_assoc. apply contains_middle. }
    assert (Hx : existsb (fun ext => contains ext (lower s)) image_exts = true).
    { apply existsb_exists. exists ext. split; assumption. }
    rewrite Hx. reflexivity.
  - intros m s Hm. unfold classify, url_type_detection. rewrite Hm. simpl py_str.
    destruct (existsb (fun ext => contains ext (lower s)) image_exts).
    + split; reflexivity.
    + split; [|discriminate].
      destruct (contains "verintcloudservices" s); discriminate.
  - intros a b ext Hin. unfold classify, url_type_detection. simpl extract_url. simpl py_str.
    assert (Hl : lower ext = ext).
    { simpl in Hin. repeat destruct Hin as [<-|Hin]; try reflexivity. contradiction. }
    assert (Hx : existsb (fun e => contains e (lower (a ++ ext ++ b))) image_exts = true).
    { apply existsb_exists. exists ext. split; [exact Hin|].
      rewrite !lower_app, Hl. apply contains_middle. }
    rewrite Hx. reflexivity.
Qed.

Lemma direct_image_by_extension_witness :
  classify (MediaDict (Some "https://cdn.example.com/photo.jpg?x=1"))
  = DirectImage (UStr "https://cdn.example.com/photo.jpg?x=1") /\
  classify (MediaStr "https://cdn.example.com/photo.gif?x=.png")
  = DirectImage (UStr "https://cdn.example.com/photo.gif?x=.png") /\
  classify (MediaStr "https://cdn.example.com/photo.jpg.gif")
  = DirectImage (UStr "https://cdn.example.com/photo.jpg.gif").
Proof.
  refine (conj _ (conj _ _)).
  - apply (proj1 direct_image_by_extension _ "https://cdn.example.com/photo.jpg?x=1");
      reflexivity.
  - apply (proj2 (proj2 direct_image_by_extension) "https://cdn.example.com/photo.gif?x="
             EmptyString ".png"). simpl. tauto.
  - apply (proj2 (proj2 direct_image_by_extension) "https://cdn.example.com/photo"
             ".gif" ".jpg"). simpl. tauto.
Defined.

(** C2 as stated fails: .gif is not on the code's list, so a plain .gif
    URL is not a direct image. *)
Lemma gif_url_not_direct_image :
  ~ (forall (m : media_url) (s : string),
        extract_url m = UStr s ->
        existsb (endswith (lower (strip_query s))) spec_image_exts = true ->
        classify m = DirectImage (UStr s)) /\
  classify (MediaStr "https://cdn.example.com/photo.gif") = Unusable.
Proof.
  split.
  - intro H. specialize (H (MediaStr "https://cdn.example.com/photo.gif")
                           "https://cdn.example.com/photo.gif" eq_refl eq_refl).
    vm_compute in H. discriminate H.
  - vm_compute. reflexivity.
Qed.

(** ** Request logs only grow *)

Definition extends {A} (m : M A) : Prop :=
  forall tr, exists rest, snd (m tr) = tr ++ rest.

Lemma extends_ret {A} (a : A) : extends (ret a).
Proof. intro tr. exists []. symmetry. apply app_nil_r. Qed.

Lemma extends_lift {A} (o : outcome A) : extends (lift o).
Proof. intro tr. exists []. symmetry. apply app_nil_r. Qed.

Lemma extends_send net r : extends (send net r).
Proof. intro tr. exists [r]. reflexivity. Qed.

Lemma extends_bind {A B} (m : M A) (k : A -> M B) :
  extends m -> (forall a, extends (k a)) -> extends (bind m k).
Proof.
  intros Hm Hk tr. unfold bind. destruct (Hm tr) as [r1 H1].
  destruct (m tr) as [[a|e] tr1]; simpl in H1; subst tr1.
  - destruct (Hk a (tr ++ r1)) as [r2 H2]. exists (r1 ++ r2).
    rewrite H2, app_assoc. reflexivity.
  - exists r1. reflexivity.
Qed.

Lemma extends_catch {A} (m : M A) (h : exn -> M A) :
  extends m -> (forall e, extends (h e)) -> extends (catch m h).
Proof.
  intros Hm Hh tr. unfold catch. destruct (Hm tr) as [r1 H1].
  destruct (m tr) as [[a|e] tr1]; simpl in H1; subst tr1.
  - exists r1. reflexivity.
  - destruct (Hh e (tr ++ r1)) as [r2 H2]. exists (r1 ++ r2).
    rewrite H2, app_assoc. reflexivity.
Qed.

Ltac extends_tac :=
  repeat match goal with
    | |- extends (bind _ _) => apply extends_bind; [|intro]
    | |- extends (catch _ _) => apply extends_catch; [|intro]
    | |- extends (ret _) => apply extends_ret
    | |- extends (lift _) => apply extends_lift
    | |- extends (send _ _) => apply extends_send
    | |- extends (match ?x with _ => _ end) => destruct x
    | |- extends (if ?b then _ else _) => destruct b
    end.

Lemma fetch_attachments_extends net case_id page formref :
  extends (fetch_attachments net case_id page formref).
Proof. unfold fetch_attachments. extends_tac. Qed.

(** ** The feed query *)

(** The part of the upstream-unavailable rule the code keeps: a reply
    with a status other than 200 gives the empty frame. *)
Lemma get_soma_data_non_200_empty net ninety_days_ago limit tr r :
  net tr (Get soma_base_url (soma_params ninety_days_ago limit) [] None) = Ok r ->
  status_code r <> 200%Z ->
  fst (get_soma_data net ninety_days_ago limit tr) = Ok EmptyFrame.
Proof.
  intros Hr Hs. unfold get_soma_data, bind, send. rewrite Hr.
  apply Z.eqb_neq in Hs. rewrite Hs. reflexivity.
Qed.

(** An exception raised by the GET leaves [get_soma_data] unchanged. *)
Lemma get_soma_data_propagates net ninety_days_ago limit tr e :
  net tr (Get soma_base_url (soma_params ninety_days_ago limit) [] None) = Raise e ->
  fst (get_soma_data net ninety_days_ago limit tr) = Raise e.
Proof. intro Hr. unfold get_soma_data, bind, send. rewrite Hr. reflexivity. Qed.

(** C3 (code bug): when the feed GET raises (a timeout or connection
    failure), [get_soma_data] raises it to its caller instead of returning
    the empty frame. *)
Theorem get_soma_data_timeout_escapes :
  fst (get_soma_data (fun _ _ => Raise Timeout) "2026-07-16T00:00:00" 400 [])
  = Raise Timeout.
Proof. reflexivity. Qed.

(** ** The image fetcher never raises *)

(** A portal that answers every step, with a download reply that lacks
    [data.txt_file]. *)
Definition ex_wrapper_url : string :=
  portal_origin ++ "/download_attachments?caseid=987".

Definition ex_page : response := {|
  status_code := 200; text := q ++ "formref" ++ q ++ ":" ++ q ++ "F1" ++ q;
  final_url := ex_wrapper_url; resp_headers := []; json_body := None |}.

Definition ex_ok (body : option json) : response := {|
  status_code := 200; text := EmptyString; final_url := EmptyString; resp_headers := [];
  json_body := body |}.





(** ** No request without a case id *)

(** C7: when the parsed query has no caseid, the fetcher returns [None]
    and issues no request. *)
Theorem no_caseid_no_request net wrapper_url query tr :
  urlparse_query wrapper_url = Ok query ->
  assoc "caseid" (parse_qs query) = None ->
  fetch_verint_image net wrapper_url tr = (Ok None, tr).
Proof.
  intros Hq Hc. unfold fetch_verint_image, catch, fetch_body, bind, lift.
  rewrite Hq. unfold qs_first. rewrite Hc. reflexivity.
Qed.

Lemma no_caseid_no_request_witness :
  urlparse_query (portal_origin ++ "/x?id=5") = Ok "id=5" /\
  fetch_verint_image (fun _ _ => Raise Timeout) (portal_origin ++ "/x?id=5") []
  = (Ok None, []).
Proof.
  split; [vm_compute; reflexivity|].
  apply (no_caseid_no_request _ _ "id=5"); vm_compute; reflexivity.
Defined.

(** ** No attachment call without a formref *)

Lemma fetch_body_no_formref net wrapper_url tr :
  (forall r, net tr (Get wrapper_url [] initial_headers (Some 5%Z)) = Ok r ->
             search formref_pattern (text r) = None) ->
  exists o, (fetch_body net wrapper_url tr = (o, tr) \/
             fetch_body net wrapper_url tr
             = (o, tr ++ [Get wrapper_url [] initial_headers (Some 5%Z)])) /\
            (o = Ok None \/ exists e, o = Raise e).
Proof.
  intro Hnf. unfold fetch_body, bind, lift.
  destruct (urlparse_query wrapper_url) as [query|e];
    [|eexists; split; [left; reflexivity|right; eexists; reflexivity]].
  destruct (qs_first "caseid" (parse_qs query)) as [cid|];
    [|eexists; split; [left; reflexivity|left; reflexivity]].
  destruct (is_blank cid); [eexists; split; [left; reflexivity|left; reflexivity]|].
  unfold send.
  destruct (net tr (Get wrapper_url [] initial_headers (Some 5%Z))) as [r|e] eqn:Hr;
    [|eexists; split; [right; reflexivity|right; eexists; reflexivity]].
  cbv beta iota.
  destruct (negb (status_code r =? 200)%Z);
    [eexists; split; [right; reflexivity|left; reflexivity]|].
  rewrite (Hnf r eq_refl).
  eexists; split; [right; reflexivity|left; reflexivity].
Qed.

(** C6: when the loaded page has no formref match, the fetcher returns
    [None] having issued at most the page GET: neither the attachment
    listing nor the download is requested. *)
Theorem no_formref_no_attachment_call net wrapper_url tr :
  (forall r, net tr (Get wrapper_url [] initial_headers (Some 5%Z)) = Ok r ->
             search formref_pattern (text r) = None) ->
  fst (fetch_verint_image net wrapper_url tr) = Ok None /\
  (snd (fetch_verint_image net wrapper_url tr) = tr \/
   snd (fetch_verint_image net wrapper_url tr)
   = tr ++ [Get wrapper_url [] initial_headers (Some 5%Z)]).
Proof.
  intro Hnf. destruct (fetch_body_no_formref net wrapper_url tr Hnf) as [o [Hb Ho]].
  unfold fetch_verint_image, catch.
  destruct Hb as [Hb|Hb]; rewrite Hb;
    destruct Ho as [->|[e ->]]; simpl; auto.
Qed.

Definition spec_example_url : string :=
  "https://portal.example-cloud.com/download_attachments?caseid=987".

Definition ex_page_without_formref : response := {|
  status_code := 200; text := "<html><body>no form here</body></html>";
  final_url := spec_example_url; resp_headers := []; json_body := None |}.

Lemma no_formref_no_attachment_call_witness :
  fst (fetch_verint_image (fun _ _ => Ok ex_page_without_formref) spec_example_url [])
  = Ok None /\
  snd (fetch_verint_image (fun _ _ => Ok ex_page_without_formref) spec_example_url [])
  = [Get spec_example_url [] initial_headers (Some 5%Z)].
Proof.
  destruct (no_formref_no_attachment_call (fun _ _ => Ok ex_page_without_formref)
              spec_example_url []) as [H1 [H2|H2]].
  - intros r Hr. injection Hr as <-. vm_compute. reflexivity.
  - vm_compute in H2. discriminate H2.
  - split; [exact H1|exact H2].
Defined.

(** ** An empty caseid value counts as no caseid *)

Lemma assoc_set_key_other {A} (k n : string) (x : A) d :
  n <> k -> assoc k (set_key n x d) = assoc k d.
Proof.
  intro Hne. induction d as [|[k' v'] d IH]; simpl.
  - destruct (String.eqb k n) eqn:E; [apply String.eqb_eq in E; congruence|reflexivity].
  - destruct (String.eqb n k') eqn:E1.
    + apply String.eqb_eq in E1. subst k'. simpl.
      destruct (String.eqb k n) eqn:E; [apply String.eqb_eq in E; congruence|reflexivity].
    + simpl. destruct (String.eqb k k'); [reflexivity|exact IH].
Qed.

Lemma assoc_app_other {A} (k n : string) (x : A) d :
  n <> k -> assoc k (d ++ [(n, x)]) = assoc k d.
Proof.
  intro Hne. induction d as [|[k' v'] d IH]; simpl.
  - destruct (String.eqb k n) eqn:E; [apply String.eqb_eq in E; congruence|reflexivity].
  - destruct (String.eqb k k'); [reflexivity|exact IH].
Qed.

(** A key that no parsed field carries has no entry in [parse_qs]. *)
Lemma parse_qs_absent (k qs : string) :
  (forall p, In p (parse_qsl qs) -> fst p <> k) ->
  assoc k (parse_qs qs) = None.
Proof.
  unfold parse_qs. intro H.
  assert (Hgen : forall l (d : list (string * list string)),
             (forall p, In p l -> fst p <> k) -> assoc k d = None ->
             assoc k (fold_left (fun d '(n, v) =>
                                   match assoc n d with
                                   | Some vs => set_key n (vs ++ [v]) d
                                   | None => d ++ [(n, [v])]
                                   end) l d) = None).
  { induction l as [|[n v] l IH]; intros d Hl Hd; simpl; [exact Hd|].
    apply IH; [intros p Hp; apply Hl; right; exact Hp|].
    assert (Hn : n <> k) by exact (Hl (n, v) (or_introl eq_refl)).
    destruct (assoc n d).
    - rewrite assoc_set_key_other by exact Hn. exact Hd.
    - rewrite assoc_app_other by exact Hn. exact Hd. }
  apply Hgen; [exact H|reflexivity].
Qed.

(** Every pair of [parse_qsl qs] comes from a field of [qs] with a
    non-empty raw value. *)
Lemma parse_qsl_origin (qs n v : string) :
  In (n, v) (parse_qsl qs) ->
  exists nv n0 v0, In nv (split "&" qs) /\ split_once "=" nv = Some (n0, v0) /\
                   is_blank v0 = false /\ n = unquote (plus_to_space n0).
Proof.
  unfold parse_qsl. destruct (is_blank qs); [simpl; tauto|].
  induction (split "&" qs) as [|nv l IH]; simpl; [tauto|].
  intro Hin.
  destruct (parse_field nv) as [[n1 v1]|] eqn:Ef.
  - destruct Hin as [Heq|Hin].
    + injection Heq as <- <-. unfold parse_field in Ef.
      destruct (is_blank nv); [discriminate|].
      destruct (split_once "=" nv) as [[n0 v0]|] eqn:Es; [|discriminate].
      destruct (is_blank v0) eqn:Eb; [discriminate|].
      injection Ef as <- <-. exists nv, n0, v0. auto.
    + destruct (IH Hin) as [nv' [n0 [v0 [H1 H2]]]]. exists nv', n0, v0. auto.
  - destruct (IH Hin) as [nv' [n0 [v0 [H1 H2]]]]. exists nv', n0, v0. auto.
Qed.

(** C10: a wrapper URL whose query has a field caseid= and no caseid
    field with a non-empty value is treated as one without caseid: the
    fetcher returns [None] and issues no request. *)
Theorem empty_caseid_no_request net wrapper_url query tr :
  urlparse_query wrapper_url = Ok query ->
  In "caseid=" (split "&" query) ->
  (forall nv n0 v0, In nv (split "&" query) -> split_once "=" nv = Some (n0, v0) ->
                    unquote (plus_to_space n0) = "caseid" -> v0 = EmptyString) ->
  fetch_verint_image net wrapper_url tr = (Ok None, tr).
Proof.
  intros Hq _ Hempty. apply (no_caseid_no_request net wrapper_url query tr Hq).
  apply parse_qs_absent. intros [n v] Hin Hn. simpl in Hn. subst n.
  destruct (parse_qsl_origin _ _ _ Hin) as [nv [n0 [v0 [H1 [H2 [H3 H4]]]]]].
  rewrite (Hempty nv n0 v0 H1 H2 (eq_sym H4)) in H3. discriminate H3.
Qed.

Lemma empty_caseid_no_request_witness :
  fetch_verint_image (fun _ _ => Raise Timeout) (portal_origin ++ "/x?caseid=") []
  = (Ok None, []).
Proof.
  apply (empty_caseid_no_request _ _ "caseid=").
  - vm_compute. reflexivity.
  - simpl. left. reflexivity.
  - intros nv n0 v0 Hin Hs Hn. simpl in Hin. destruct Hin as [<-|[]].
    vm_compute in Hs. injection Hs as <- <-. reflexivity.
Defined.

(** ** A failed handshake is not fatal *)

Lemma bind_ok {A B} (m : M A) (k : A -> M B) tr a tr' :
  m tr = (Ok a, tr') -> bind m k tr = k a tr'.
Proof. intro H. unfold bind. rewrite H. reflexivity. Qed.

Lemma bind_raise {A B} (m : M A) (k : A -> M B) tr e tr' :
  m tr = (Raise e, tr') -> bind m k tr = (Raise e, tr').
Proof. intro H. unfold bind. rewrite H. reflexivity. Qed.

Lemma catch_ok {A} (m : M A) h tr a tr' :
  m tr = (Ok a, tr') -> catch m h tr = (Ok a, tr').
Proof. intro H. unfold catch. rewrite H. reflexivity. Qed.

Lemma catch_raise {A} (m : M A) h tr e tr' :
  m tr = (Raise e, tr') -> catch m h tr = h e tr'.
Proof. intro H. unfold catch. rewrite H. reflexivity. Qed.

Lemma snd_catch_ret {A} (m : M A) (a : A) tr :
  snd (catch m (fun _ => ret a) tr) = snd (m tr).
Proof. unfold catch. destruct (m tr) as [[x|e] tr']; reflexivity. Qed.

Definition page_request (wrapper_url : string) : request :=
  Get wrapper_url [] initial_headers (Some 5%Z).

Definition handshake_request (page : response) : request :=
  Get citizen_url [] (handshake_headers page (search csrf_pattern (text page))) (Some 5%Z).

Definition listing_headers (page : response) : headers :=
  set_key "Content-Type" "application/json"
          (handshake_headers page (search csrf_pattern (text page))).

Definition listing_request (case_id : string) (page : response) (formref : string) : request :=
  Post list_url (payload_of (nested_data case_id formref)) (listing_headers page) (Some 5%Z).

Lemma fetch_body_reaches_attachments net wrapper_url tr query case_id page formref :
  urlparse_query wrapper_url = Ok query ->
  qs_first "caseid" (parse_qs query) = Some case_id ->
  is_blank case_id = false ->
  net tr (page_request wrapper_url) = Ok page ->
  status_code page = 200%Z ->
  search formref_pattern (text page) = Some formref ->
  fetch_body net wrapper_url tr
  = fetch_attachments net case_id page formref (tr ++ [page_request wrapper_url]).
Proof.
  intros Hq Hc Hb Hp Hs Hf. unfold fetch_body.
  rewrite (bind_ok _ _ tr query tr) by (unfold lift; rewrite Hq; reflexivity).
  rewrite Hc, Hb.
  rewrite (bind_ok _ _ tr page (tr ++ [page_request wrapper_url]))
    by (unfold send; change (Get wrapper_url [] initial_headers (Some 5%Z))
          with (page_request wrapper_url); rewrite Hp; reflexivity).
  rewrite Hs. simpl negb. cbv iota. rewrite Hf. reflexivity.
Qed.

Lemma fetch_attachments_lists net case_id page formref tr1 :
  (exists e, net tr1 (handshake_request page) = Raise e) \/
  (exists r, net tr1 (handshake_request page) = Ok r /\
             header_lookup "Authorization" (resp_headers r) = None) ->
  exists rest, snd (fetch_attachments net case_id page formref tr1)
               = tr1 ++ [handshake_request page; listing_request case_id page formref] ++ rest.
Proof.
  intro Hhs. unfold fetch_attachments.
  set (h3 := handshake_headers page (search csrf_pattern (text page))).
  assert (Hc : catch (r_handshake <- send net (Get citizen_url [] h3 (Some 5%Z)) ;;
                      ret (match header_lookup "Authorization" (resp_headers r_handshake) with
                           | Some a => set_key "Authorization" a h3
                           | None => h3
                           end))
                     (fun _ => ret h3) tr1
               = (Ok h3, tr1 ++ [handshake_request page])).
  { destruct Hhs as [[e He]|[r [Hr Ha]]].
    - rewrite (catch_raise _ _ tr1 e (tr1 ++ [handshake_request page])); [reflexivity|].
      apply bind_raise. unfold send.
      change (Get citizen_url [] h3 (Some 5%Z)) with (handshake_request page).
      rewrite He. reflexivity.
    - apply catch_ok.
      rewrite (bind_ok _ _ tr1 r (tr1 ++ [handshake_request page]))
        by (unfold send; change (Get citizen_url [] h3 (Some 5%Z)) with (handshake_request page); rewrite Hr; reflexivity).
      unfold ret. rewrite Ha. reflexivity. }
  rewrite (bind_ok _ _ _ _ _ Hc). cbv zeta.
  change (Post list_url (payload_of (nested_data case_id formref))
               (set_key "Content-Type" "application/json" h3) (Some 5%Z))
    with (listing_request case_id page formref).
  destruct (net (tr1 ++ [handshake_request page]) (listing_request case_id page formref))
    as [rl|e] eqn:Hl.
  - rewrite (bind_ok _ _ _ rl ((tr1 ++ [handshake_request page]) ++
                              [listing_request case_id page formref]))
      by (unfold send; rewrite Hl; reflexivity).
    match goal with
    | |- exists rest, snd (?k ?tr2) = _ =>
        assert (Hk : extends k) by (cbv beta; extends_tac);
        destruct (Hk tr2) as [rest Hrest]
    end.
    exists rest. rewrite Hrest, <- !app_assoc. reflexivity.
  - rewrite (bind_raise _ _ _ e ((tr1 ++ [handshake_request page]) ++
                                 [listing_request case_id page formref]))
      by (unfold send; rewrite Hl; reflexivity).
    exists []. simpl. rewrite <- !app_assoc. reflexivity.
Qed.

(** C8: when the handshake GET raises, or answers without an
    Authorization header, resolution goes on: the attachment listing is
    requested right after it, with headers that carry no Authorization. *)
Theorem handshake_failure_not_fatal net wrapper_url tr query case_id page formref :
  urlparse_query wrapper_url = Ok query ->
  qs_first "caseid" (parse_qs query) = Some case_id ->
  is_blank case_id = false ->
  net tr (page_request wrapper_url) = Ok page ->
  status_code page = 200%Z ->
  search formref_pattern (text page) = Some formref ->
  (exists e, net (tr ++ [page_request wrapper_url]) (handshake_request page) = Raise e) \/
  (exists r, net (tr ++ [page_request wrapper_url]) (handshake_request page) = Ok r /\
             header_lookup "Authorization" (resp_headers r) = None) ->
  (exists rest, snd (fetch_verint_image net wrapper_url tr)
                = tr ++ [page_request wrapper_url; handshake_request page;
                         listing_request case_id page formref] ++ rest) /\
  assoc "Authorization" (listing_headers page) = None.
Proof.
  intros Hq Hc Hb Hp Hs Hf Hhs. split.
  - unfold fetch_verint_image. rewrite snd_catch_ret.
    rewrite (fetch_body_reaches_attachments net wrapper_url tr query case_id page formref
               Hq Hc Hb Hp Hs Hf).
    destruct (fetch_attachments_lists net case_id page formref _ Hhs) as [rest Hr].
    exists rest. rewrite Hr, <- app_assoc. reflexivity.
  - unfold listing_headers, handshake_headers.
    destruct (search csrf_pattern (text page)); reflexivity.
Qed.

(** A portal whose handshake endpoint times out. *)
Definition net_handshake_timeout : list request -> request -> outcome response :=
  fun _ r => match r with
             | Get u _ _ _ => if String.eqb u ex_wrapper_url then Ok ex_page else Raise Timeout
             | Post _ _ _ _ => Ok (ex_ok None)
             end.

Lemma handshake_failure_not_fatal_witness :
  (exists rest, snd (fetch_verint_image net_handshake_timeout ex_wrapper_url [])
                = [page_request ex_wrapper_url; handshake_request ex_page;
                   listing_request "987" ex_page "F1"] ++ rest) /\
  assoc "Authorization" (listing_headers ex_page) = None.
Proof.
  apply (handshake_failure_not_fatal net_handshake_timeout ex_wrapper_url [] "caseid=987");
    try (vm_compute; reflexivity).
  left. exists Timeout. vm_compute. reflexivity.
Defined.

(* ================================================================== *)
(** * Further properties of the code *)

(** ** The heatmap query never raises *)

Definition heatmap_request (days_ago : string) : request :=
  Get soma_base_url (heatmap_params days_ago) [] (Some 10%Z).

Lemma heatmap_body_cases net pandas_steps days_ago tr :
  snd (get_citywide_heatmap_data net pandas_steps days_ago tr) = tr ++ [heatmap_request days_ago] /\
  (exists f, fst (get_citywide_heatmap_data net pandas_steps days_ago tr) = Ok f) /\
  (forall e, net tr (heatmap_request days_ago) = Raise e ->
             fst (get_citywide_heatmap_data net pandas_steps days_ago tr) = Ok EmptyFrame) /\
  (forall r, net tr (heatmap_request days_ago) = Ok r -> status_code r <> 200%Z ->
             fst (get_citywide_heatmap_data net pandas_steps days_ago tr) = Ok EmptyFrame).
Proof.
  unfold get_citywide_heatmap_data, catch, bind, send, lift, ret.
  fold (heatmap_request days_ago).
  destruct (net tr (heatmap_request days_ago)) as [r|e] eqn:Hr.
  - destruct (negb (status_code r =? 200)%Z) eqn:Hs.
    + refine (conj _ (conj _ (conj _ _))); [reflexivity|eexists; reflexivity|intros e He; discriminate|].
      intros r' Hr' _. reflexivity.
    + assert (H200 : status_code r = 200%Z)
        by (destruct (status_code r =? 200)%Z eqn:E; [apply Z.eqb_eq; exact E|discriminate Hs]).
      destruct (resp_json r) as [j|e]; [destruct (mk_frame j) as [df|e]; [destruct (pandas_steps df)|]|];
        (refine (conj _ (conj _ (conj _ _))); [reflexivity|eexists; reflexivity|intros e' He; discriminate|]);
        intros r' Hr' Hne; injection Hr' as <-; contradiction.
  - refine (conj _ (conj _ (conj _ _))); [reflexivity|eexists; reflexivity|reflexivity|].
    intros r' Hr'; discriminate.
Qed.

(** Under [@st.cache_data(ttl=3600)], a call of [get_citywide_heatmap_data]
    never raises and leaves its frame in the cache. With a valid cached
    frame it returns that frame and sends no request. Otherwise it sends
    exactly one request, the GET with a 10-second timeout, and returns the
    empty frame when that GET raises or answers with a status other than
    200. A second call while the entry is valid returns the same frame
    and sends nothing: at most one request per hour. *)
Theorem heatmap_cached_call net pandas_steps days_ago cached tr :
  (exists df, fst (cached_heatmap net pandas_steps days_ago cached tr) = Ok (df, Some df)) /\
  (forall df, cached = Some df ->
     cached_heatmap net pandas_steps days_ago cached tr = (Ok (df, Some df), tr)) /\
  (cached = None ->
     snd (cached_heatmap net pandas_steps days_ago cached tr) = tr ++ [heatmap_request days_ago] /\
     ((exists e, net tr (heatmap_request days_ago) = Raise e) \/
      (exists r, net tr (heatmap_request days_ago) = Ok r /\ status_code r <> 200%Z) ->
      fst (cached_heatmap net pandas_steps days_ago cached tr) = Ok (EmptyFrame, Some EmptyFrame))) /\
  (forall days_ago',
     match cached_heatmap net pandas_steps days_ago cached tr with
     | (Ok (df, c), tr1) => cached_heatmap net pandas_steps days_ago' c tr1 = (Ok (df, c), tr1)
     | (Raise _, _) => False
     end).
Proof.
  destruct cached as [df|].
  - refine (conj _ (conj _ (conj _ _))).
    + exists df. reflexivity.
    + intros df' H. injection H as <-. reflexivity.
    + discriminate.
    + intro d'. reflexivity.
  - destruct (heatmap_body_cases net pandas_steps days_ago tr) as [Htr [[f Hf] [He Hs]]].
    destruct (get_citywide_heatmap_data net pandas_steps days_ago tr) as [o tr1] eqn:E.
    cbn [fst snd] in Htr, Hf, He, Hs. subst o.
    unfold cached_heatmap, bind, ret. rewrite E.
    refine (conj _ (conj _ (conj _ _))).
    + exists f. reflexivity.
    + discriminate.
    + intros _. split; [exact Htr|].
      intros [[e He']|[r [Hr Hne]]].
      * injection (He e He') as ->. reflexivity.
      * injection (Hs r Hr Hne) as ->. reflexivity.
    + intro d'. reflexivity.
Qed.

(** ** The photo-feed pre-processing loop *)

Lemma fetch_verint_image_ok net url tr :
  exists v tr', fetch_verint_image net url tr = (Ok v, tr').
Proof.
  unfold fetch_verint_image, catch.
  destruct (fetch_body net url tr) as [[v|e] tr']; eexists; eexists; reflexivity.
Qed.

Lemma resolve_row_ok net cache row tr :
  exists img c tr', resolve_row net cache row tr = (Ok (img, c), tr').
Proof.
  unfold resolve_row.
  destruct (url_type_detection (extract_url (media row))) as [u|u|];
    [do 3 eexists; reflexivity| |do 3 eexists; reflexivity].
  unfold cached_fetch. destruct (assoc (py_str u) cache) as [res|].
  - do 3 eexists; reflexivity.
  - destruct (fetch_verint_image_ok net (py_str u) tr) as [v [tr' H]].
    unfold bind, ret. cbv beta. rewrite H. do 3 eexists; reflexivity.
Qed.

Lemma assoc_app_some {A} (k : string) (v : A) d e :
  assoc k d = Some v -> assoc k (d ++ e) = Some v.
Proof.
  induction d as [|[k' v'] d IH]; simpl; [discriminate|].
  destruct (String.eqb k k'); [tauto|exact IH].
Qed.

Lemma assoc_app_none {A} (k : string) d (e : list (string * A)) :
  assoc k d = None -> assoc k (d ++ e) = assoc k e.
Proof.
  induction d as [|[k' v'] d IH]; simpl; [reflexivity|].
  destruct (String.eqb k k'); [discriminate|exact IH].
Qed.

Lemma assoc_app_last {A} (k : string) (v : A) d :
  assoc k d = None -> assoc k (d ++ [(k, v)]) = Some v.
Proof.
  intro H. rewrite (assoc_app_none _ _ _ H). simpl. rewrite String.eqb_refl. reflexivity.
Qed.

(** A row the loop skips: a duplicate, or one whose media URL is neither
    a direct image nor a portal wrapper. *)
Definition skipped (row : feed_row) : bool :=
  is_duplicate row ||
  match url_type_detection (extract_url (media row)) with
  | Unusable => true
  | _ => false
  end.

(** Skipped rows have no effect at all: the loop over the feed gives the
    same display list, the same cache and the same requests as the loop
    over the feed without them.  In particular a duplicate report never
    triggers a portal fetch. *)
Theorem preprocess_ignores_skipped_rows net rows cache tr :
  preprocess net rows cache tr
  = preprocess net (filter (fun r => negb (skipped r)) rows) cache tr.
Proof.
  revert cache tr. induction rows as [|row rest IH]; intros cache tr; [reflexivity|].
  cbn [preprocess filter]. unfold skipped at 1.
  destruct (is_duplicate row) eqn:Ed; [exact (IH cache tr)|].
  cbn [orb].
  destruct (url_type_detection (extract_url (media row))) as [u|u|] eqn:Eu.
  - cbn [negb]. cbn [preprocess]. rewrite Ed.
    unfold bind at 1 3. destruct (resolve_row net cache row tr) as [[st|e] tr1]; [|reflexivity].
    unfold bind. rewrite IH. reflexivity.
  - cbn [negb]. cbn [preprocess]. rewrite Ed.
    unfold bind at 1 3. destruct (resolve_row net cache row tr) as [[st|e] tr1]; [|reflexivity].
    unfold bind. rewrite IH. reflexivity.
  - cbn [negb]. rewrite <- IH.
    unfold resolve_row. rewrite Eu. unfold bind, ret. cbn [fst snd].
    destruct (preprocess net rest cache tr) as [[[items c]|e] tr']; reflexivity.
Qed.

(** A kept row with a direct image URL is always displayed, with the URL
    itself as content, and costs no request. *)
Theorem preprocess_direct_row net row rest cache tr u :
  is_duplicate row = false ->
  url_type_detection (extract_url (media row)) = DirectImage u ->
  preprocess net (row :: rest) cache tr
  = match preprocess net rest cache tr with
    | (Ok (items, c), tr') => (Ok ((CUrl u, row) :: items, c), tr')
    | (Raise e, tr') => (Raise e, tr')
    end.
Proof.
  intros Ed Eu. cbn [preprocess]. rewrite Ed.
  unfold resolve_row. rewrite Eu. unfold bind at 1, ret at 1. cbv beta. cbn [fst snd].
  assert (Ht : truthy (CUrl u) = true).
  { unfold url_type_detection in Eu.
    destruct (existsb (fun ext => contains ext (lower (py_str (extract_url (media row))))) image_exts)
      eqn:Ex; [|destruct (contains _ _) in Eu; discriminate].
    injection Eu as <-.
    destruct (extract_url (media row)) as [[|c s]| |]; try reflexivity; vm_compute in Ex; discriminate. }
  rewrite Ht. unfold bind, ret.
  destruct (preprocess net rest cache tr) as [[[items c]|e] tr']; reflexivity.
Qed.

Definition ex_direct_row : feed_row :=
  {| status_notes := CellStr "Open"; media := MediaStr "https://x.org/a.JPG";
     address := CellMissing |}.

Lemma preprocess_direct_row_witness :
  preprocess (fun _ _ => Raise Timeout) [ex_direct_row] [] []
  = (Ok ([(CUrl (UStr "https://x.org/a.JPG"), ex_direct_row)], []), []).
Proof.
  rewrite (preprocess_direct_row _ ex_direct_row [] [] [] (UStr "https://x.org/a.JPG"))
    by (vm_compute; reflexivity).
  reflexivity.
Defined.

(** [l1] is a subsequence of [l2]. *)
Inductive subseq {A} : list A -> list A -> Prop :=
  | subseq_nil : subseq [] []
  | subseq_skip x l1 l2 : subseq l1 l2 -> subseq l1 (x :: l2)
  | subseq_keep x l1 l2 : subseq l1 l2 -> subseq (x :: l1) (x :: l2).

(** The loop never raises, whatever the network does; the displayed rows
    are feed rows in feed order, none of them a duplicate, each with a
    truthy content. *)
Theorem preprocess_result_invariants net rows cache tr :
  exists items c tr', preprocess net rows cache tr = (Ok (items, c), tr') /\
    subseq (map snd items) rows /\
    Forall (fun it => truthy (fst it) = true /\ is_duplicate (snd it) = false) items.
Proof.
  revert cache tr. induction rows as [|row rest IH]; intros cache tr.
  - exists [], cache, tr. repeat split; constructor.
  - cbn [preprocess]. destruct (is_duplicate row) eqn:Ed.
    + destruct (IH cache tr) as [items [c [tr' [H1 [H2 H3]]]]].
      exists items, c, tr'. repeat split; [exact H1|apply subseq_skip; exact H2|exact H3].
    + destruct (resolve_row_ok net cache row tr) as [img [c1 [tr1 Hr]]].
      rewrite (bind_ok _ _ _ _ _ Hr). cbn [fst snd].
      destruct (IH c1 tr1) as [items [c [tr' [H1 [H2 H3]]]]].
      rewrite (bind_ok _ _ _ _ _ H1). unfold ret. cbn [fst snd].
      destruct img as [ct|]; [destruct (truthy ct) eqn:Et|].
      * eexists; exists c, tr'. split; [reflexivity|]. split.
        -- cbn [map fst snd]. apply subseq_keep. exact H2.
        -- constructor; [split; assumption|exact H3].
      * exists items, c, tr'. repeat split; [apply subseq_skip; exact H2|exact H3].
      * exists items, c, tr'. repeat split; [apply subseq_skip; exact H2|exact H3].
Qed.

(** ** Row-first batching of the display loop *)

(** Where item [k] is shown: batch [4 * (k / 4)], column [k mod 4]. *)
Definition slot (k : nat) : nat * nat * nat := (4 * (k / 4), k mod 4, k)%nat.

Definition batch_cells (n i : nat) : list (nat * nat * nat) :=
  flat_map (fun j => if (i + j <? n)%nat then [(i, j, i + j)] else []) (seq 0 batch_size).

Ltac ltb_solve :=
  repeat match goal with
    | |- context [(?x <? ?y)%nat] =>
        first [rewrite (proj2 (Nat.ltb_lt x y)) by lia
              |rewrite (proj2 (Nat.ltb_ge x y)) by lia]
    end.

Lemma slot_at (a j : nat) : (j < 4)%nat -> slot (4 * a + j) = (4 * a, j, 4 * a + j)%nat.
Proof.
  intro Hj. unfold slot.
  rewrite <- (Nat.div_unique (4 * a + j) 4 a j Hj eq_refl).
  rewrite <- (Nat.mod_unique (4 * a + j) 4 a j Hj eq_refl).
  reflexivity.
Qed.

Lemma batch_cells_slots (n a : nat) :
  batch_cells n (4 * a) = map slot (seq (4 * a) (Nat.min 4 (n - 4 * a))).
Proof.
  unfold batch_cells, batch_size. cbn [seq flat_map].
  assert (Hs : forall j, (j < 4)%nat -> slot (4 * a + j) = (4 * a, j, 4 * a + j)%nat)
    by (intros; apply slot_at; assumption).
  assert (H0 : slot (4 * a) = (4 * a, 0, 4 * a + 0)%nat)
    by (rewrite <- (Hs 0%nat) by lia; rewrite Nat.add_0_r; reflexivity).
  assert (H4 : (4 * a + 4 <= n \/ n <= 4 * a \/ n = 4 * a + 1 \/ n = 4 * a + 2 \/ n = 4 * a + 3)%nat)
    by lia.
  destruct H4 as [H|[H|[H|[H|H]]]];
    [replace (Nat.min 4 (n - 4 * a)) with 4%nat by lia
    |replace (Nat.min 4 (n - 4 * a)) with 0%nat by lia
    |replace (Nat.min 4 (n - 4 * a)) with 1%nat by lia
    |replace (Nat.min 4 (n - 4 * a)) with 2%nat by lia
    |replace (Nat.min 4 (n - 4 * a)) with 3%nat by lia];
    ltb_solve; cbn [seq map app];
    try replace (S (S (S (4 * a)))) with (4 * a + 3)%nat by lia;
    try replace (S (S (4 * a))) with (4 * a + 2)%nat by lia;
    try replace (S (4 * a)) with (4 * a + 1)%nat by lia;
    rewrite ?(Hs 1%nat), ?(Hs 2%nat), ?(Hs 3%nat) by lia;
    rewrite ?H0; reflexivity.
Qed.

Lemma batch_cells_past (n m a : nat) :
  (n <= 4 * a)%nat -> flat_map (fun b => batch_cells n (4 * b)) (seq a m) = [].
Proof.
  revert a. induction m as [|m IH]; intros a Ha; [reflexivity|].
  cbn [seq flat_map]. rewrite batch_cells_slots.
  replace (Nat.min 4 (n - 4 * a)) with 0%nat by lia. cbn [seq map app].
  apply IH. lia.
Qed.

Lemma batch_cells_from (m a n : nat) :
  (4 * a <= n)%nat -> (n <= 4 * (a + m))%nat ->
  flat_map (fun b => batch_cells n (4 * b)) (seq a m) = map slot (seq (4 * a) (n - 4 * a)).
Proof.
  revert a. induction m as [|m IH]; intros a H1 H2.
  - replace (n - 4 * a)%nat with 0%nat by lia. reflexivity.
  - cbn [seq flat_map]. rewrite batch_cells_slots.
    destruct (Nat.le_gt_cases (4 * a + 4) n) as [Hle|Hgt].
    + replace (Nat.min 4 (n - 4 * a)) with 4%nat by lia.
      rewrite (IH (S a)) by lia.
      replace (n - 4 * a)%nat with (4 + (n - 4 * S a))%nat by lia.
      rewrite seq_app, map_app. replace (4 * a + 4)%nat with (4 * S a)%nat by lia.
      reflexivity.
    + replace (Nat.min 4 (n - 4 * a)) with (n - 4 * a)%nat by lia.
      rewrite (batch_cells_past n m (S a)) by lia. apply app_nil_r.
Qed.

(** The slots of the two nested loops: item [k] goes to column [k mod 4]
    of the batch starting at [4 * (k / 4)], in list order. *)
Lemma display_layout_slots (n : nat) :
  display_layout n = map slot (seq 0 n).
Proof.
  unfold display_layout, range_step.
  assert (Hfm : forall (A B C : Type) (f : B -> list C) (g : A -> B) l,
             flat_map f (map g l) = flat_map (fun x => f (g x)) l)
    by (intros A B C f g l; induction l as [|x l IH]; [reflexivity|cbn; rewrite IH; reflexivity]).
  rewrite Hfm.
  change (flat_map (fun b => batch_cells n (4 * b)) (seq 0 ((n + 4 - 1) / 4))
          = map slot (seq 0 n)).
  rewrite (batch_cells_from ((n + 4 - 1) / 4) 0 n); [rewrite Nat.sub_0_r; reflexivity|lia|].
  pose proof (Nat.div_mod (n + 4 - 1) 4) as Hd.
  pose proof (Nat.mod_upper_bound (n + 4 - 1) 4) as Hm. lia.
Qed.

Section DisplayLoopProofs.

Context {A B : Type}.
Variable render : A -> outcome B.

(** The renderings of the items up to the first one whose body raises,
    and that exception. *)
Fixpoint render_prefix (items : list A) : list B * option exn :=
  match items with
  | [] => ([], None)
  | it :: rest =>
      match render it with
      | Raise e => ([], Some e)
      | Ok b => let '(bs, err) := render_prefix rest in (b :: bs, err)
      end
  end.

Fixpoint place (n : nat) (bs : list B) : list (nat * nat * B) :=
  match bs with
  | [] => []
  | b :: bs' => (4 * (n / 4), n mod 4, b)%nat :: place (S n) bs'
  end.

Lemma show_cells_slots (pre l : list A) :
  show_cells render (map slot (seq (length pre) (length l))) (pre ++ l)
  = let '(bs, err) := render_prefix l in (place (length pre) bs, err).
Proof.
  revert pre. induction l as [|it l IH]; intro pre; [reflexivity|].
  cbn [length seq map]. unfold slot at 1. cbn [show_cells render_prefix].
  rewrite nth_error_app2 by lia. rewrite Nat.sub_diag. cbn [nth_error].
  destruct (render it) as [b|e]; [|reflexivity].
  specialize (IH (pre ++ [it])).
  rewrite <- app_assoc, length_app in IH. cbn [app length] in IH.
  rewrite Nat.add_1_r in IH. rewrite IH.
  destruct (render_prefix l) as [bs err]. reflexivity.
Qed.

Lemma place_nth (n : nat) (bs : list B) (k : nat) :
  nth_error (place n bs) k
  = option_map (fun b => (4 * ((n + k) / 4), (n + k) mod 4, b)%nat) (nth_error bs k).
Proof.
  revert n k. induction bs as [|b bs IH]; intros n k; [destruct k; reflexivity|].
  destruct k as [|k]; cbn [place nth_error option_map].
  - rewrite Nat.add_0_r. reflexivity.
  - rewrite IH. replace (S n + k)%nat with (n + S k)%nat by lia. reflexivity.
Qed.

Lemma place_length (n : nat) (bs : list B) : length (place n bs) = length bs.
Proof. revert n. induction bs as [|b bs IH]; intro n; cbn; [reflexivity|now rewrite IH]. Qed.

Lemma render_prefix_spec (l : list A) :
  let '(bs, err) := render_prefix l in
  (length bs <= length l)%nat /\
  (forall k b, nth_error bs k = Some b ->
     exists it, nth_error l k = Some it /\ render it = Ok b) /\
  match err with
  | None => length bs = length l
  | Some e => exists it, nth_error l (length bs) = Some it /\ render it = Raise e
  end.
Proof.
  induction l as [|it l IH]; cbn [render_prefix].
  - split; [reflexivity|split; [intros [|k] b H; discriminate H|reflexivity]].
  - destruct (render it) as [b|e] eqn:Er.
    + destruct (render_prefix l) as [bs err].
      destruct IH as [H1 [H2 H3]]. cbn [length]. split; [lia|split].
      * intros [|k] b' H; cbn [nth_error] in H |- *.
        -- injection H as <-. exists it. split; [reflexivity|exact Er].
        -- exact (H2 k b' H).
      * destruct err; [exact H3|rewrite H3; reflexivity].
    + cbn [length]. split; [lia|split].
      * intros [|k] b' H; discriminate H.
      * exists it. split; [reflexivity|exact Er].
Qed.

End DisplayLoopProofs.

(** The display loop shows a prefix of [display_list], in order: for
    every [k] before the stopping point, item [k] with its rendering in
    column [k mod 4] of the batch [4 * (k / 4)]. If no body raises, every
    item is shown, each exactly once. Otherwise the loop stops at the
    first item whose body raises: that exception propagates and no later
    item is shown. *)
Theorem display_loop_shows_prefix {A B} (render : A -> outcome B) (display_list : list A) :
  match display_loop render display_list with
  | (shown, err) =>
      (length shown <= length display_list)%nat /\
      (forall k, (k < length shown)%nat ->
         exists it b, nth_error display_list k = Some it /\ render it = Ok b /\
                      nth_error shown k = Some (4 * (k / 4), k mod 4, b)%nat) /\
      match err with
      | None => length shown = length display_list
      | Some e => exists it, nth_error display_list (length shown) = Some it /\
                              render it = Raise e
      end
  end.
Proof.
  unfold display_loop. rewrite display_layout_slots.
  pose proof (show_cells_slots render [] display_list) as H. cbn [length app] in H.
  rewrite H. pose proof (render_prefix_spec render display_list) as Hs.
  destruct (render_prefix render display_list) as [bs err].
  destruct Hs as [H1 [H2 H3]]. rewrite place_length.
  split; [exact H1|split].
  - intros k Hk. destruct (nth_error bs k) as [b|] eqn:Eb;
      [|apply nth_error_None in Eb; lia].
    destruct (H2 k b Eb) as [it [Hit Hr]].
    exists it, b. split; [exact Hit|split; [exact Hr|]].
    rewrite place_nth, Eb. reflexivity.
  - exact H3.
Qed.

(** ** The address caption and the map link *)

Lemma split_first_field (c : ascii) (s : string) :
  exists rest, s = (hd EmptyString (split c s) ++ rest)%string /\
               string_forallb (fun d => negb (Ascii.eqb d c)) (hd EmptyString (split c s)) = true /\
               (rest = EmptyString \/ exists r', rest = String c r').
Proof.
  induction s as [|d s IH].
  - exists EmptyString. repeat split. left; reflexivity.
  - cbn [split]. destruct (Ascii.eqb c d) eqn:E.
    + apply Ascii.eqb_eq in E. subst d. exists (String c s). repeat split.
      right. exists s. reflexivity.
    + destruct IH as [rest [H1 [H2 H3]]].
      pose proof (split_not_nil c s) as Hnn.
      destruct (split c s) as [|w ws] eqn:Es; [contradiction|].
      cbn [hd] in *. exists rest. repeat split.
      * cbn [append]. rewrite <- H1. reflexivity.
      * cbn [string_forallb]. rewrite H2, Bool.andb_true_r.
        rewrite Ascii.eqb_sym, E. reflexivity.
      * exact H3.
Qed.

Lemma replace_space_props (s : string) :
  string_forallb (fun d => negb (Ascii.eqb d " ")) (replace_space s) = true /\
  String.length (replace_space s) = String.length s.
Proof.
  induction s as [|c s [IH1 IH2]]; [split; reflexivity|].
  cbn [replace_space string_forallb String.length]. split; [|rewrite IH2; reflexivity].
  rewrite IH1, Bool.andb_true_r.
  destruct (Ascii.eqb c " ") eqn:E; [reflexivity|]. rewrite E. reflexivity.
Qed.

(** The caption of a displayed report: for an address string, the label
    is its text up to the first comma (all of it when there is none) and
    the map link is the address with every space turned into [+], of the
    same length.  Without an address column the label is SOMA and the
    link carries an empty query; a NaN address raises [AttributeError]. *)
Theorem address_caption_label_link (s : string) :
  (exists label rest,
     address_caption (CellStr s) = Ok (label, maps_base ++ replace_space s)%string /\
     s = (label ++ rest)%string /\
     string_forallb (fun d => negb (Ascii.eqb d ",")) label = true /\
     (rest = EmptyString \/ exists r', rest = String "," r') /\
     string_forallb (fun d => negb (Ascii.eqb d " ")) (replace_space s) = true /\
     String.length (replace_space s) = String.length s) /\
  address_caption CellMissing = Ok ("SOMA", maps_base) /\
  address_caption CellNaN = Raise AttributeError.
Proof.
  split; [|split; reflexivity].
  destruct (split_first_field "," s) as [rest [H1 [H2 H3]]].
  destruct (replace_space_props s) as [H4 H5].
  exists (hd EmptyString (split "," s)), rest. repeat split; assumption.
Qed.

(** ** base64 decoding skips characters outside the alphabet *)

Lemma a2b_base64_skip (c : ascii) (a b : string) :
  b64_val c = None -> Ascii.eqb c "=" = false ->
  forall qp lc pads out,
    a2b_base64 (a ++ String c b) qp lc pads out = a2b_base64 (a ++ b) qp lc pads out.
Proof.
  intros Hv He. induction a as [|d a IH]; intros qp lc pads out.
  - cbn [append a2b_base64]. rewrite He, Hv. reflexivity.
  - cbn [append a2b_base64].
    repeat (first [reflexivity | apply IH
                  | match goal with |- context [if ?x then _ else _] => destruct x end
                  | match goal with |- context [match ?x with Some _ => _ | None => _ end] =>
                      destruct x end]).
Qed.

Lemma string_forallb_skip (f : ascii -> bool) (c : ascii) (a b : string) :
  f c = true -> string_forallb f (a ++ String c b) = string_forallb f (a ++ b).
Proof.
  intro Hc. induction a as [|d a IH]; cbn [append string_forallb].
  - rewrite Hc. reflexivity.
  - rewrite IH. reflexivity.
Qed.

(** [base64.b64decode] ignores an ASCII character outside the base64
    alphabet other than the pad wherever it occurs (a line break or a
    space in the [txt_file] payload changes nothing). *)
Theorem b64decode_skips_non_alphabet (c : ascii) (a b : string) :
  is_ascii c = true -> b64_val c = None -> c <> "="%char ->
  b64decode (a ++ String c b) = b64decode (a ++ b).
Proof.
  intros Ha Hv Hne. unfold b64decode.
  rewrite (string_forallb_skip _ _ _ _ Ha).
  destruct (string_forallb is_ascii (a ++ b)); [|reflexivity].
  apply a2b_base64_skip; [exact Hv|].
  destruct (Ascii.eqb c "=") eqn:E; [apply Ascii.eqb_eq in E; contradiction|reflexivity].
Qed.

Lemma b64decode_skips_non_alphabet_witness :
  b64decode ("aG" ++ String (Ascii.ascii_of_nat 10) "k=") = b64decode ("aG" ++ "k=")
  /\ b64decode ("aG" ++ "k=") = Ok [104%N; 105%N].
Proof.
  split; [|vm_compute; reflexivity].
  apply b64decode_skips_non_alphabet; [vm_compute; reflexivity|vm_compute; reflexivity|].
  intro H. discriminate H.
Defined.

(** ** [parse_qs]: the first value of a key *)

Lemma assoc_set_key_same {A} (k : string) (x y : A) d :
  assoc k d = Some y -> assoc k (set_key k x d) = Some x.
Proof.
  induction d as [|[k' v'] d IH]; cbn [assoc set_key]; [discriminate|].
  destruct (String.eqb k k') eqn:E; intro H.
  - cbn [assoc]. rewrite E. reflexivity.
  - cbn [assoc]. rewrite E. exact (IH H).
Qed.

Definition qs_step (d : list (string * list string)) (p : string * string)
  : list (string * list string) :=
  let '(n, v) := p in
  match assoc n d with
  | Some vs => set_key n (vs ++ [v]) d
  | None => d ++ [(n, [v])]
  end.

Lemma qs_step_keeps_head (k : string) l d v vs :
  assoc k d = Some (v :: vs) ->
  exists vs', assoc k (fold_left qs_step l d) = Some (v :: vs').
Proof.
  revert d vs. induction l as [|[n v'] l IH]; intros d vs H; [exists vs; exact H|].
  cbn [fold_left]. unfold qs_step at 2.
  destruct (String.eqb n k) eqn:E.
  - apply String.eqb_eq in E. subst n. rewrite H.
    apply (IH _ (vs ++ [v'])). apply (assoc_set_key_same _ _ _ _ H).
  - apply String.eqb_neq in E.
    destruct (assoc n d); [apply (IH _ vs); rewrite assoc_set_key_other by exact E; exact H|].
    apply (IH _ vs). rewrite assoc_app_other by exact E. exact H.
Qed.

Lemma qs_first_fold (k : string) l d :
  assoc k d = None ->
  qs_first k (fold_left qs_step l d) = option_map snd (find (fun p => String.eqb (fst p) k) l).
Proof.
  revert d. induction l as [|[n v] l IH]; intros d H.
  - cbn. unfold qs_first. rewrite H. reflexivity.
  - cbn [fold_left find fst]. destruct (String.eqb n k) eqn:E.
    + apply String.eqb_eq in E. subst n. unfold qs_step at 2. rewrite H.
      destruct (qs_step_keeps_head k l (d ++ [(k, [v])]) v [] (assoc_app_last _ _ _ H))
        as [vs' Hv].
      unfold qs_first. rewrite Hv. reflexivity.
    + apply String.eqb_neq in E. apply IH. unfold qs_step.
      destruct (assoc n d).
      * rewrite assoc_set_key_other by exact E. exact H.
      * rewrite assoc_app_other by exact E. exact H.
Qed.

(** [parse_qs(query).get(key, [None])[0]] is the value of the first
    field named [key] that [parse_qsl] keeps (a field with an empty value
    is dropped): with [caseid=1&caseid=2] the fetcher uses [1]. *)
Theorem qs_first_is_first_field (key qs : string) :
  qs_first key (parse_qs qs)
  = option_map snd (find (fun p => String.eqb (fst p) key) (parse_qsl qs)).
Proof.
  unfold parse_qs. change (fold_left _ (parse_qsl qs) []) with (fold_left qs_step (parse_qsl qs) []).
  apply qs_first_fold. reflexivity.
Qed.

(** ** The formref scrape *)

Definition not_quote (c : ascii) : bool := negb (Ascii.eqb c dquote).

Lemma substring_long (s : string) (m : nat) :
  (String.length s <= m)%nat -> substring 0 m s = s.
Proof.
  revert m. induction s as [|c s IH]; intros m Hm; [destruct m; reflexivity|].
  destruct m as [|m]; [cbn in Hm; lia|].
  cbn. rewrite IH by (cbn in Hm; lia). reflexivity.
Qed.

Lemma substring_after (t b : string) :
  substring (String.length t) (String.length (t ++ b)) (t ++ b) = b.
Proof.
  assert (H : forall m, (String.length b <= m)%nat ->
                        substring (String.length t) m (t ++ b) = b).
  { induction t as [|c t IH]; intros m Hm; [apply substring_long; exact Hm|].
    cbn [String.length append substring]. exact (IH m Hm). }
  apply H. clear H. induction t as [|c t IH]; cbn; lia.
Qed.

Lemma match_at_lit (l rest : string) p grp :
  match_at (TLit l :: p) grp (l ++ rest) = match_at p grp rest.
Proof. cbn [match_at]. rewrite prefix_app, substring_after. reflexivity. Qed.

Lemma span_space_app (ws : string) (c : ascii) (rest : string) :
  string_forallb is_space ws = true -> is_space c = false ->
  span_space (ws ++ String c rest) = (String.length ws, String c rest).
Proof.
  intros Hws Hc. induction ws as [|d ws IH]; cbn [append span_space].
  - rewrite Hc. reflexivity.
  - cbn [string_forallb] in Hws. apply andb_prop in Hws as [Hd Hws].
    rewrite Hd, (IH Hws). reflexivity.
Qed.

Lemma span_noquote_app (g post : string) :
  string_forallb not_quote g = true ->
  span_noquote (g ++ String dquote post) = (g, String dquote post).
Proof.
  intro Hg. induction g as [|d g IH]; cbn [append span_noquote].
  - rewrite Ascii.eqb_refl. reflexivity.
  - cbn [string_forallb] in Hg. apply andb_prop in Hg as [Hd Hg].
    unfold not_quote in Hd. apply Bool.negb_true_iff in Hd. rewrite Hd, (IH Hg). reflexivity.
Qed.

Lemma match_at_space_lit (m : nat) (ws l rest : string) p grp :
  string_forallb is_space ws = true ->
  (exists c l', l = String c l' /\ is_space c = false) ->
  (m <= String.length ws)%nat ->
  match_at (TSpace m :: TLit l :: p) grp (ws ++ l ++ rest) = match_at p grp rest.
Proof.
  intros Hws [c [l' [-> Hc]]] Hm. cbn [match_at].
  change (String c l' ++ rest)%string with (String c (l' ++ rest)).
  rewrite (span_space_app _ _ _ Hws Hc).
  apply Nat.leb_le in Hm. cbv beta iota zeta. rewrite Hm.
  change (String c (l' ++ rest)) with (String c l' ++ rest)%string.
  rewrite prefix_app, substring_after. reflexivity.
Qed.

Lemma search_formref_skip (pre s : string) :
  string_forallb not_quote pre = true ->
  search formref_pattern (pre ++ s) = search formref_pattern s.
Proof.
  intro Hp. induction pre as [|c pre IH]; [reflexivity|].
  cbn [string_forallb] in Hp. apply andb_prop in Hp as [Hc Hp].
  unfold not_quote in Hc. apply Bool.negb_true_iff in Hc.
  cbn [append search]. unfold formref_pattern, q. cbn [append match_at prefix].
  destruct (ascii_dec dquote c) as [E|E].
  - subst c. rewrite Ascii.eqb_refl in Hc. discriminate Hc.
  - exact (IH Hp).
Qed.

(** The formref the fetcher sends is the value of the first quoted
    formref key of the page when no double quote comes before it: with
    any whitespace around the colon, the value up to the next quote. *)
Theorem search_formref_finds_value (pre ws1 ws2 g post : string) :
  string_forallb not_quote pre = true ->
  string_forallb is_space ws1 = true -> string_forallb is_space ws2 = true ->
  g <> EmptyString -> string_forallb not_quote g = true ->
  search formref_pattern
    (pre ++ q ++ "formref" ++ q ++ ws1 ++ ":" ++ ws2 ++ q ++ g ++ q ++ post)%string
  = Some g.
Proof.
  intros Hp H1 H2 Hg Hgq. rewrite (search_formref_skip _ _ Hp).
  assert (Hm : match_at formref_pattern None
                 (q ++ "formref" ++ q ++ ws1 ++ ":" ++ ws2 ++ q ++ g ++ q ++ post)%string
               = Some (Some g)).
  { unfold formref_pattern.
    change (q ++ "formref" ++ q ++ ?Y)%string with ((q ++ "formref" ++ q) ++ Y)%string.
    rewrite match_at_lit.
    rewrite (match_at_space_lit 0 ws1 ":")
      by first [exact H1 | lia | eexists; eexists; split; reflexivity].
    rewrite (match_at_space_lit 0 ws2 q)
      by first [exact H2 | lia | eexists; eexists; split; reflexivity].
    cbn [match_at]. unfold q.
    change (String dquote EmptyString ++ post)%string with (String dquote post).
    rewrite (span_noquote_app _ _ Hgq).
    destruct g as [|c g']; [contradiction|]. cbn [is_blank String.eqb].
    cbv beta iota zeta. cbn [prefix].
    destruct (ascii_dec dquote dquote) as [_|E]; [|contradiction].
    destruct post; reflexivity. }
  destruct (q ++ "formref" ++ q ++ ws1 ++ ":" ++ ws2 ++ q ++ g ++ q ++ post)%string
    as [|c s'] eqn:Es; [discriminate Es|].
  cbn [search]. rewrite Hm. reflexivity.
Qed.

Lemma search_formref_finds_value_witness :
  search formref_pattern
    ("<div id=f>" ++ q ++ "formref" ++ q ++ " " ++ ":" ++ "  " ++ q ++ "AF-1" ++ q ++ "}")%string
  = Some "AF-1".
Proof.
  apply search_formref_finds_value; try (vm_compute; reflexivity).
  discriminate.
Defined.

(** ** No download without a qualifying attachment *)

Definition is_download (r : request) : bool :=
  match r with
  | Post u _ _ _ => String.eqb u download_url
  | Get _ _ _ _ => false
  end.

Lemma fetch_attachments_no_file net case_id page formref tr1 r_list j d fs :
  (forall tr' p h t, net tr' (Post list_url p h t) = Ok r_list) ->
  json_body r_list = Some j ->
  py_get j "data" (JObj []) = Ok d ->
  py_get d "formdata_filenames" (JStr EmptyString) = Ok (JStr fs) ->
  select_filename (split ";" fs) = None ->
  exists rest, fetch_attachments net case_id page formref tr1 = (Ok None, tr1 ++ rest) /\
               Forall (fun r => is_download r = false) rest.
Proof.
  intros Hl Hj Hd Hf Hs. unfold fetch_attachments, catch, bind, send, ret, lift.
  cbv beta iota zeta.
  match goal with |- context [net tr1 ?r] => set (hreq := r); destruct (net tr1 hreq) end;
    rewrite Hl; unfold resp_json; rewrite Hj; rewrite Hd, Hf; cbn [json_split]; rewrite Hs;
    (eexists; split; [rewrite <- app_assoc; reflexivity|]);
    repeat constructor.
Qed.

Lemma fetch_body_cases net wrapper_url tr :
  (exists o, (fetch_body net wrapper_url tr = (o, tr) \/
              fetch_body net wrapper_url tr = (o, tr ++ [page_request wrapper_url])) /\
             (o = Ok None \/ exists e, o = Raise e)) \/
  (exists case_id page formref,
     fetch_body net wrapper_url tr
     = fetch_attachments net case_id page formref (tr ++ [page_request wrapper_url])).
Proof.
  unfold fetch_body, bind, lift.
  destruct (urlparse_query wrapper_url) as [query|e];
    [|left; eexists; split; [left; reflexivity|right; eexists; reflexivity]].
  destruct (qs_first "caseid" (parse_qs query)) as [cid|];
    [|left; eexists; split; [left; reflexivity|left; reflexivity]].
  destruct (is_blank cid); [left; eexists; split; [left; reflexivity|left; reflexivity]|].
  unfold send. fold (page_request wrapper_url).
  destruct (net tr (page_request wrapper_url)) as [r|e];
    [|left; eexists; split; [right; reflexivity|right; eexists; reflexivity]].
  cbv beta iota.
  destruct (negb (status_code r =? 200)%Z);
    [left; eexists; split; [right; reflexivity|left; reflexivity]|].
  destruct (search formref_pattern (text r)) as [formref|];
    [right; exists cid, r, formref; reflexivity|].
  left; eexists; split; [right; reflexivity|left; reflexivity].
Qed.

(** When the attachment listing names no file the selector accepts
    (no [formdata_filenames] at all included), the fetcher returns [None]
    and never requests a download, whatever the rest of the portal does. *)
Theorem no_qualifying_file_no_download net wrapper_url tr r_list j d fs :
  (forall tr' p h t, net tr' (Post list_url p h t) = Ok r_list) ->
  json_body r_list = Some j ->
  py_get j "data" (JObj []) = Ok d ->
  py_get d "formdata_filenames" (JStr EmptyString) = Ok (JStr fs) ->
  select_filename (split ";" fs) = None ->
  fst (fetch_verint_image net wrapper_url tr) = Ok None /\
  exists rest, snd (fetch_verint_image net wrapper_url tr) = tr ++ rest /\
               Forall (fun r => is_download r = false) rest.
Proof.
  intros Hl Hj Hd Hf Hs. unfold fetch_verint_image, catch.
  destruct (fetch_body_cases net wrapper_url tr) as [[o [[H|H] Ho]]|[cid [page [formref H]]]];
    rewrite H.
  - destruct Ho as [->|[e ->]]; (split; [reflexivity|exists []; split; [symmetry; apply app_nil_r|constructor]]).
  - destruct Ho as [->|[e ->]];
      (split; [reflexivity|exists [page_request wrapper_url]; split; [reflexivity|repeat constructor]]).
  - destruct (fetch_attachments_no_file net cid page formref (tr ++ [page_request wrapper_url])
                r_list j d fs Hl Hj Hd Hf Hs) as [rest [Ha Hr]].
    rewrite Ha. split; [reflexivity|].
    exists (page_request wrapper_url :: rest). split; [rewrite <- app_assoc; reflexivity|].
    constructor; [reflexivity|exact Hr].
Qed.

(** A portal whose listing reply has no data at all. *)
Definition net_empty_listing : list request -> request -> outcome response :=
  fun _ r => match r with
             | Get u _ _ _ => if String.eqb u ex_wrapper_url then Ok ex_page else Raise Timeout
             | Post _ _ _ _ => Ok (ex_ok (Some (JObj [])))
             end.

Lemma no_qualifying_file_no_download_witness :
  fst (fetch_verint_image net_empty_listing ex_wrapper_url []) = Ok None /\
  exists rest, snd (fetch_verint_image net_empty_listing ex_wrapper_url []) = [] ++ rest /\
               Forall (fun r => is_download r = false) rest.
Proof.
  apply (no_qualifying_file_no_download _ _ _ (ex_ok (Some (JObj []))) (JObj []) (JObj []) EmptyString);
    [intros; reflexivity|vm_compute; reflexivity ..].
Defined.

(** ** What the fetcher sends *)

Definition req_timeout (r : request) : option Z :=
  match r with Get _ _ _ t => t | Post _ _ _ t => t end.

Definition req_headers (r : request) : headers :=
  match r with Get _ _ h _ => h | Post _ _ h _ => h end.

(** A request with the 5-second timeout and the browser User-Agent. *)
Definition polite (r : request) : Prop :=
  req_timeout r = Some 5%Z /\ assoc "User-Agent" (req_headers r) = Some user_agent.

(** [m] issues at most [n] requests, all polite, and its result
    satisfies [Q]. *)
Definition sends {A} (Q : A -> Prop) (n : nat) (m : M A) : Prop :=
  forall tr, exists rest, snd (m tr) = tr ++ rest /\ Forall polite rest /\
                          (length rest <= n)%nat /\ (forall a, fst (m tr) = Ok a -> Q a).

Lemma sends_ret {A} (Q : A -> Prop) n a : Q a -> sends Q n (ret a).
Proof.
  intros Ha tr. exists []. repeat split; [symmetry; apply app_nil_r|constructor|cbn; lia|].
  intros a' H. injection H as <-. exact Ha.
Qed.

Lemma sends_lift {A} (Q : A -> Prop) n o : (forall a, o = Ok a -> Q a) -> sends Q n (lift o).
Proof.
  intros Ho tr. exists []. repeat split; [symmetry; apply app_nil_r|constructor|cbn; lia|].
  exact Ho.
Qed.

Lemma sends_send net r : polite r -> sends (fun _ => True) 1 (send net r).
Proof.
  intros Hr tr. exists [r]. split; [reflexivity|].
  split; [constructor; [exact Hr|constructor]|]. split; [cbn; lia|]. intros; exact I.
Qed.

Lemma sends_bind_n {A B} (Q1 : A -> Prop) (Q2 : B -> Prop) n1 n2 m k :
  sends Q1 n1 m -> (forall a, Q1 a -> sends Q2 n2 (k a)) -> sends Q2 (n1 + n2) (bind m k).
Proof.
  intros H1 H2 tr. destruct (H1 tr) as [r1 [E1 [F1 [L1 Q1']]]].
  unfold bind. destruct (m tr) as [[a|e] tr1]; cbn [fst snd] in *; subst tr1.
  - destruct (H2 a (Q1' a eq_refl) (tr ++ r1)) as [r2 [E2 [F2 [L2 Q2']]]].
    exists (r1 ++ r2). rewrite E2, app_assoc. split; [reflexivity|].
    split; [apply Forall_app; split; assumption|]. split; [rewrite length_app; lia|exact Q2'].
  - exists r1. split; [reflexivity|]. split; [exact F1|]. split; [lia|].
    intros a' Ha'. discriminate Ha'.
Qed.

Lemma sends_bind0 {A B} (Q1 : A -> Prop) (Q2 : B -> Prop) n m k :
  sends Q1 0 m -> (forall a, Q1 a -> sends Q2 n (k a)) -> sends Q2 n (bind m k).
Proof. intros H1 H2. exact (sends_bind_n Q1 Q2 0 n m k H1 H2). Qed.

Lemma sends_bind1 {A B} (Q1 : A -> Prop) (Q2 : B -> Prop) n m k :
  sends Q1 1 m -> (forall a, Q1 a -> sends Q2 n (k a)) -> sends Q2 (S n) (bind m k).
Proof. intros H1 H2. exact (sends_bind_n Q1 Q2 1 n m k H1 H2). Qed.

Lemma sends_catch0 {A} (Q : A -> Prop) n m h :
  sends Q n m -> (forall e, sends Q 0 (h e)) -> sends Q n (catch m h).
Proof.
  intros H1 H2 tr. destruct (H1 tr) as [r1 [E1 [F1 [L1 Q1']]]].
  unfold catch. destruct (m tr) as [[a|e] tr1]; cbn [fst snd] in *; subst tr1.
  - exists r1. split; [reflexivity|]. split; [exact F1|]. split; [exact L1|exact Q1'].
  - destruct (H2 e (tr ++ r1)) as [r2 [E2 [F2 [L2 Q2']]]].
    exists (r1 ++ r2). rewrite E2, app_assoc. split; [reflexivity|].
    split; [apply Forall_app; split; assumption|]. split; [rewrite length_app; lia|exact Q2'].
Qed.

Ltac sends_tac :=
  repeat match goal with
    | |- sends _ _ (bind (lift _) _) =>
        apply sends_bind0 with (Q1 := fun _ => True); [apply sends_lift; auto|intros ? _]
    | |- sends _ _ (bind (send _ _) _) =>
        apply sends_bind1 with (Q1 := fun _ => True); [apply sends_send|intros ? _]
    | |- sends _ _ (ret _) => apply sends_ret; auto
    | |- sends _ _ (match ?x with _ => _ end) => destruct x
    | |- sends _ _ (if ?b then _ else _) => destruct b
    end.

Lemma handshake_headers_ua page csrf :
  assoc "User-Agent" (handshake_headers page csrf) = Some user_agent.
Proof.
  unfold handshake_headers.
  destruct csrf; rewrite ?assoc_set_key_other by discriminate; reflexivity.
Qed.

Lemma fetch_attachments_sends net case_id page formref :
  sends (fun _ => True) 3 (fetch_attachments net case_id page formref).
Proof.
  unfold fetch_attachments. cbv zeta.
  pose proof (handshake_headers_ua page (search csrf_pattern (text page))) as H3.
  apply sends_bind1 with (Q1 := fun hs => assoc "User-Agent" hs = Some user_agent).
  - apply sends_catch0; [|intro; apply sends_ret; exact H3].
    apply sends_bind1 with (Q1 := fun _ => True);
      [apply sends_send; split; [reflexivity|exact H3]|intros r _].
    apply sends_ret. destruct (header_lookup "Authorization" (resp_headers r));
      [rewrite assoc_set_key_other by discriminate|]; exact H3.
  - intros hs Hs.
    assert (Hh : assoc "User-Agent" (set_key "Content-Type" "application/json" hs)
                 = Some user_agent) by (rewrite assoc_set_key_other by discriminate; exact Hs).
    sends_tac; split; solve [reflexivity|exact Hh].
Qed.

Lemma fetch_verint_image_sends net wrapper_url :
  sends (fun _ => True) 4 (fetch_verint_image net wrapper_url).
Proof.
  unfold fetch_verint_image. apply sends_catch0; [|intro; apply sends_ret; auto].
  unfold fetch_body. sends_tac; [split; reflexivity|].
  apply fetch_attachments_sends.
Qed.

(** [fetch_verint_image] issues at most four requests (the page, the
    handshake, the listing and the download) and every one of them has
    the 5-second timeout and the browser User-Agent header. *)
Theorem fetcher_requests_polite_and_bounded net wrapper_url tr :
  exists rest, snd (fetch_verint_image net wrapper_url tr) = tr ++ rest /\
               (length rest <= 4)%nat /\
               Forall (fun r => req_timeout r = Some 5%Z /\
                                assoc "User-Agent" (req_headers r) = Some user_agent) rest.
Proof.
  destruct (fetch_verint_image_sends net wrapper_url tr) as [rest [E [F [L _]]]].
  exists rest. auto.
Qed.

Lemma sends_weaken {A} (Q : A -> Prop) n n' m : sends Q n m -> (n <= n')%nat -> sends Q n' m.
Proof.
  intros H Hn tr. destruct (H tr) as [rest [E [F [L Hq]]]].
  exists rest. split; [exact E|]. split; [exact F|]. split; [lia|exact Hq].
Qed.

Definition is_portal_row (row : feed_row) : bool :=
  negb (is_duplicate row) &&
  match url_type_detection (extract_url (media row)) with
  | PortalWrapper _ => true
  | _ => false
  end.

Lemma resolve_row_sends net cache row :
  sends (fun _ => True)
        (match url_type_detection (extract_url (media row)) with
         | PortalWrapper _ => 4 | _ => 0 end)
        (resolve_row net cache row).
Proof.
  unfold resolve_row.
  destruct (url_type_detection (extract_url (media row))) as [u|u|];
    [apply sends_ret; auto| |apply sends_ret; auto].
  apply (sends_bind_n (fun _ => True) _ 4 0); [|intros; apply sends_ret; auto].
  unfold cached_fetch. destruct (assoc (py_str u) cache); [apply sends_ret; auto|].
  apply (sends_bind_n (fun _ => True) _ 4 0); [apply fetch_verint_image_sends|].
  intros; apply sends_ret; auto.
Qed.

(** The pre-processing loop issues at most four requests per kept row
    with a portal URL, none for the other rows, and every request has the
    5-second timeout and the browser User-Agent header. *)
Theorem preprocess_requests_bounded net rows cache tr :
  exists rest, snd (preprocess net rows cache tr) = tr ++ rest /\
               (length rest <= 4 * length (filter is_portal_row rows))%nat /\
               Forall (fun r => req_timeout r = Some 5%Z /\
                                assoc "User-Agent" (req_headers r) = Some user_agent) rest.
Proof.
  assert (H : forall rows cache,
             sends (fun _ => True) (4 * length (filter is_portal_row rows)) (preprocess net rows cache)).
  { clear. induction rows as [|row rest IH]; intro cache; [apply sends_ret; auto|].
    cbn [preprocess filter]. unfold is_portal_row at 1.
    destruct (is_duplicate row) eqn:Ed; [exact (IH cache)|]. cbn [negb andb].
    eapply sends_weaken.
    - apply (sends_bind_n (fun _ => True) _
               (match url_type_detection (extract_url (media row)) with
                | PortalWrapper _ => 4 | _ => 0 end)
               (4 * length (filter is_portal_row rest) + 0)).
      + apply resolve_row_sends.
      + intros step _. apply (sends_bind_n (fun _ => True) _ _ 0); [apply IH|].
        intros; apply sends_ret; auto.
    - destruct (url_type_detection (extract_url (media row))); cbn [length]; lia. }
  destruct (H rows cache tr) as [rest [E [F [L _]]]].
  exists rest. auto.
Qed.

(** ** A wrapper URL without a query string *)

Section ForallbSuffix.

Variable f : ascii -> bool.

Lemma forallb_app_r (a b : string) :
  string_forallb f (a ++ b) = true -> string_forallb f b = true.
Proof.
  induction a as [|c a IH]; cbn [append string_forallb]; [tauto|].
  intro H. apply andb_prop in H as [_ H]. exact (IH H).
Qed.

Lemma forallb_lstrip_c0 (s : string) :
  string_forallb f s = true -> string_forallb f (lstrip_c0 s) = true.
Proof.
  induction s as [|c s IH]; cbn [lstrip_c0]; [tauto|].
  intro H. destruct (is_c0_or_space c); [|exact H].
  cbn [string_forallb] in H. apply andb_prop in H as [_ H]. exact (IH H).
Qed.

Lemma forallb_remove_unsafe (s : string) :
  string_forallb f s = true -> string_forallb f (remove_unsafe s) = true.
Proof.
  induction s as [|c s IH]; cbn [remove_unsafe]; [tauto|].
  intro H. cbn [string_forallb] in H. apply andb_prop in H as [Hc H].
  destruct (_ || _ || _); [exact (IH H)|cbn [string_forallb]; rewrite Hc; exact (IH H)].
Qed.

Lemma forallb_split_once (c : ascii) (s a b : string) :
  split_once c s = Some (a, b) -> string_forallb f s = true ->
  string_forallb f a = true /\ string_forallb f b = true.
Proof.
  revert a b. induction s as [|d s IH]; intros a b; cbn [split_once]; [discriminate|].
  intros Hs H. cbn [string_forallb] in H. apply andb_prop in H as [Hd H].
  destruct (Ascii.eqb c d).
  - injection Hs as <- <-. split; [reflexivity|exact H].
  - destruct (split_once c s) as [[a' b']|]; [|discriminate].
    injection Hs as <- <-. destruct (IH a' b' eq_refl H) as [H1 H2].
    split; [cbn [string_forallb]; rewrite Hd; exact H1|exact H2].
Qed.

Lemma forallb_drop_scheme (s : string) :
  string_forallb f s = true -> string_forallb f (drop_scheme s) = true.
Proof.
  intro H. unfold drop_scheme.
  destruct (split_once ":" s) as [[sch rest]|] eqn:Es; [|exact H].
  destruct (forallb_split_once _ _ _ _ Es H) as [_ Hr].
  destruct sch; [exact H|]. destruct (_ && _); [exact Hr|exact H].
Qed.

Lemma forallb_span_netloc (s : string) :
  string_forallb f s = true -> string_forallb f (snd (span_netloc s)) = true.
Proof.
  induction s as [|c s IH]; cbn [span_netloc]; [tauto|].
  intro H. destruct (_ || _ || _); [exact H|].
  cbn [string_forallb] in H. apply andb_prop in H as [_ H].
  specialize (IH H). destruct (span_netloc s). exact IH.
Qed.

Lemma forallb_after_netloc (u : string) :
  string_forallb f u = true ->
  string_forallb f (snd (match u with
                         | String "/" (String "/" r) => span_netloc r
                         | _ => (EmptyString, u)
                         end)) = true.
Proof.
  intro H. destruct u as [|c u]; [exact H|].
  destruct c as [[] [] [] [] [] [] [] []]; try exact H.
  destruct u as [|d r]; [exact H|].
  destruct d as [[] [] [] [] [] [] [] []]; try exact H.
  apply forallb_span_netloc.
  cbn [string_forallb] in H. apply andb_prop in H as [_ H].
  apply andb_prop in H as [_ H]. exact H.
Qed.

End ForallbSuffix.

Definition no_qmark (c : ascii) : bool := negb (Ascii.eqb c "?").

Lemma split_once_none (c : ascii) (s : string) :
  string_forallb (fun d => negb (Ascii.eqb d c)) s = true -> split_once c s = None.
Proof.
  induction s as [|d s IH]; [reflexivity|].
  cbn [string_forallb split_once]. intro H. apply andb_prop in H as [Hd H].
  rewrite Ascii.eqb_sym. apply Bool.negb_true_iff in Hd. rewrite Hd, (IH H). reflexivity.
Qed.

Lemma urlparse_query_no_qmark (url : string) :
  string_forallb no_qmark url = true ->
  urlparse_query url = Ok EmptyString \/ urlparse_query url = Raise ValueError.
Proof.
  intro H. unfold urlparse_query.
  pose proof (forallb_after_netloc no_qmark _
                (forallb_drop_scheme _ _ (forallb_remove_unsafe _ _ (forallb_lstrip_c0 _ _ H))))
    as H2.
  destruct (match drop_scheme (remove_unsafe (lstrip_c0 url)) with
            | String "/" (String "/" r) => span_netloc r
            | _ => (EmptyString, drop_scheme (remove_unsafe (lstrip_c0 url)))
            end) as [netloc url2].
  cbn [snd] in H2.
  destruct (_ || _); [right; reflexivity|left].
  assert (H3 : string_forallb no_qmark (match split_once "#" url2 with
                                        | Some (u, _) => u
                                        | None => url2
                                        end) = true).
  { destruct (split_once "#" url2) as [[u v]|] eqn:Es; [|exact H2].
    exact (proj1 (forallb_split_once _ _ _ _ _ Es H2)). }
  rewrite (split_once_none "?" _ H3). reflexivity.
Qed.

(** A wrapper URL with no [?] has an empty query, hence no caseid (or it
    is a malformed URL, which the handler catches): the fetcher returns
    [None] without issuing any request. *)
Theorem no_query_no_request net wrapper_url tr :
  string_forallb no_qmark wrapper_url = true ->
  fetch_verint_image net wrapper_url tr = (Ok None, tr).
Proof.
  intro H. unfold fetch_verint_image, catch, fetch_body, bind, lift.
  destruct (urlparse_query_no_qmark _ H) as [E|E]; rewrite E; reflexivity.
Qed.

Lemma no_query_no_request_witness :
  fetch_verint_image (fun _ _ => Raise Timeout) (portal_origin ++ "/download/987") [] = (Ok None, []).
Proof. apply no_query_no_request. vm_compute. reflexivity. Defined.

(** ** The fetcher's result on every path *)




